(** * Taste of Weather: the session state machine and the three service wrappers

    A shallow embedding of [src/App.tsx], [src/services/geminiService.ts] and
    the type declarations of the repository.  The hosted generative model,
    the browser's geolocation service and the script engine's built-ins are
    the environment: what they answer is an input of the functions below. *)

From Stdlib Require Import ZArith NArith QArith Qround List Bool Lia.
From Stdlib Require Import Strings.String Strings.Ascii DecimalString.
From stdpp Require Import gmap.
Import ListNotations.

(* ===================================================================== *)
(** ** The script engine: values, strings, completions                     *)
(* ===================================================================== *)

Module JS.

(** A string is a sequence of UTF-16 code units. *)
Definition jsstring := list N.

(** Source literals are written in this file as UTF-8; [js] decodes one into
    its code units (a code point beyond U+FFFF becomes a surrogate pair). *)
Fixpoint utf16_of_utf8 (bs : list N) : jsstring :=
  match bs with
  | [] => []
  | b0 :: t0 =>
    if (b0 <? 128)%N then b0 :: utf16_of_utf8 t0 else
    match t0 with
    | [] => [b0]
    | b1 :: t1 =>
      if (b0 <? 224)%N then ((b0 mod 32) * 64 + b1 mod 64)%N :: utf16_of_utf8 t1 else
      match t1 with
      | [] => [b0; b1]
      | b2 :: t2 =>
        if (b0 <? 240)%N
        then ((b0 mod 16) * 4096 + (b1 mod 64) * 64 + b2 mod 64)%N :: utf16_of_utf8 t2
        else
        match t2 with
        | [] => [b0; b1; b2]
        | b3 :: t3 =>
          let cp := ((b0 mod 8) * 262144 + (b1 mod 64) * 4096
                     + (b2 mod 64) * 64 + b3 mod 64 - 65536)%N in
          (55296 + cp / 1024)%N :: (56320 + cp mod 1024)%N :: utf16_of_utf8 t3
        end
      end
    end
  end.

Definition js (s : string) : jsstring :=
  utf16_of_utf8 (List.map N_of_ascii (list_ascii_of_string s)).

Fixpoint jsstring_eqb (a b : jsstring) : bool :=
  match a, b with
  | [], [] => true
  | x :: a', y :: b' => (x =? y)%N && jsstring_eqb a' b'
  | _, _ => false
  end.

(** Values as the program meets them: what [JSON.parse] builds, plus
    [undefined], which a property read yields for a missing key.  A finite
    number is the rational it denotes (every finite double is one); [VInf]
    is [Infinity] or [-Infinity], which [JSON.parse] gives for a literal
    beyond the range of a double. *)
#[local] Unset Elimination Schemes.
Inductive value :=
| VUndefined
| VNull
| VBool (b : bool)
| VNum (q : Q)
| VInf (negative : bool)
| VStr (s : jsstring)
| VArr (elements : list value)
| VObj (props : list (jsstring * value)).
#[local] Set Elimination Schemes.

(** An object is its list of own enumerable properties. *)
Definition object := list (jsstring * value).

Fixpoint own_get (k : jsstring) (o : object) : value :=
  match o with
  | [] => VUndefined
  | (k', v) :: o' => if jsstring_eqb k k' then v else own_get k o'
  end.

(** [o\[k\] = v]: an existing key keeps its place, a new one goes last. *)
Fixpoint own_set (k : jsstring) (v : value) (o : object) : object :=
  match o with
  | [] => [(k, v)]
  | (k', v') :: o' =>
    if jsstring_eqb k k' then (k', v) :: o' else (k', v') :: own_set k v o'
  end.

(** Abrupt completions. *)
Inductive exn :=
| Error (message : jsstring)
| TypeError
| SyntaxError
| Rejection.

Inductive completion (A : Type) :=
| Return (a : A)
| Throw (e : exn).
Arguments Return {A} a.
Arguments Throw {A} e.

Definition bind {A B} (c : completion A) (k : A -> completion B) : completion B :=
  match c with
  | Return a => k a
  | Throw e => Throw e
  end.

Notation "'let*' x ':=' c 'in' k" := (bind c (fun x => k))
  (at level 10, x name, k at level 200).

(** [try { body } catch (e) { handler }] *)
Definition try_catch {A} (body : completion A) (handler : exn -> completion A)
  : completion A :=
  match body with
  | Return a => Return a
  | Throw e => handler e
  end.

(** [v.k] for the property names this program reads ([foodName], [reason],
    [familiarity], [condition], [temperature]): none is an index, [length]
    or a member of a built-in prototype, so the read yields the own property
    of an object, [undefined] on any other value, and raises a [TypeError]
    on [null] and [undefined]. *)
Definition get (v : value) (k : jsstring) : completion value :=
  match v with
  | VUndefined | VNull => Throw TypeError
  | VObj o => Return (own_get k o)
  | VBool _ | VNum _ | VInf _ | VStr _ | VArr _ => Return VUndefined
  end.

(** ToBoolean *)
Definition truthy (v : value) : bool :=
  match v with
  | VUndefined | VNull => false
  | VBool b => b
  | VNum q => negb (Qnum q =? 0)%Z
  | VStr s => negb (jsstring_eqb s [])
  | VInf _ | VArr _ | VObj _ => true
  end.

(** [Math.round] of a finite number: the nearest integer, a tie going up. *)
Definition Math_round (q : Q) : Z := Qfloor (q + (1 # 2)).

(** [String.prototype.trim] removes white space and line terminators. *)
Definition is_trimmed (c : N) : bool :=
  ((9 <=? c) && (c <=? 13) || (c =? 32) || (c =? 160) || (c =? 5760)
   || (8192 <=? c) && (c <=? 8202) || (c =? 8232) || (c =? 8233)
   || (c =? 8239) || (c =? 8287) || (c =? 12288) || (c =? 65279))%N.

Fixpoint trimStart (s : jsstring) : jsstring :=
  match s with
  | c :: s' => if is_trimmed c then trimStart s' else s
  | [] => []
  end.

Definition trim (s : jsstring) : jsstring :=
  rev (trimStart (rev (trimStart s))).

(** [s.replace(/^p/, '')] for a literal [p]. *)
Fixpoint remove_prefix (p s : jsstring) : option jsstring :=
  match p, s with
  | [], _ => Some s
  | a :: p', b :: s' => if (a =? b)%N then remove_prefix p' s' else None
  | _ :: _, [] => None
  end.

Definition replace_at_start (p s : jsstring) : jsstring :=
  match remove_prefix p s with
  | Some s' => s'
  | None => s
  end.

(** [s.replace(/p$/, '')] for a literal [p]. *)
Definition replace_at_end (p s : jsstring) : jsstring :=
  rev (replace_at_start (rev p) (rev s)).

(** Decimal digits of an array index, as a property key. *)
Definition index_key (i : nat) : jsstring :=
  js (NilEmpty.string_of_uint (Nat.to_uint i)).

Fixpoint indexed {A} (i : nat) (l : list A) : list (nat * A) :=
  match l with
  | [] => []
  | a :: l' => (i, a) :: indexed (S i) l'
  end.

(** [{...v}]: the own enumerable properties object spread copies. *)
Definition spread (v : value) : object :=
  match v with
  | VObj o => o
  | VArr l => List.map (fun p => (index_key (fst p), snd p)) (indexed 0 l)
  | VStr s => List.map (fun p => (index_key (fst p), VStr [snd p])) (indexed 0 s)
  | VUndefined | VNull | VBool _ | VNum _ | VInf _ => []
  end.

(** Whether ToString of a value raises a TypeError, as in a template
    literal.  An object converts through its [toString]: an own [toString]
    property of a parsed object is never callable, and the inherited
    [valueOf] returns the object itself, so the conversion raises; without
    it the inherited method answers.  An array joins the conversions of its
    elements, [null] and [undefined] counting as empty. *)
Fixpoint ToString_raises (v : value) : bool :=
  match v with
  | VObj o => existsb (fun p => jsstring_eqb (fst p) (js "toString")) o
  | VArr l => existsb ToString_raises l
  | VUndefined | VNull | VBool _ | VNum _ | VInf _ | VStr _ => false
  end.

(** ToString of a string that may be [undefined]. *)
Definition ToString (s : option jsstring) : jsstring :=
  match s with
  | Some s => s
  | None => js "undefined"
  end.

End JS.

Import JS.

(* ===================================================================== *)
(** ** [JSON.parse] on a text                                              *)
(* ===================================================================== *)

(** The services below take the parser as a parameter; this reading of the
    JSON grammar instantiates it on concrete response texts. *)
Module JSON.

Definition is_ws (c : N) : bool :=
  ((c =? 9) || (c =? 10) || (c =? 13) || (c =? 32))%N.

Fixpoint skip_ws (s : jsstring) : jsstring :=
  match s with
  | c :: s' => if is_ws c then skip_ws s' else s
  | [] => []
  end.

Definition digit (c : N) : option Z :=
  if ((48 <=? c) && (c <=? 57))%N then Some (Z.of_N (c - 48)) else None.

(** The longest run of digits: value so far, digits read, rest. *)
Fixpoint digits (acc : Z) (n : nat) (s : jsstring) : Z * nat * jsstring :=
  match s with
  | c :: s' =>
    match digit c with
    | Some d => digits (10 * acc + d) (S n) s'
    | None => (acc, n, s)
    end
  | [] => (acc, n, [])
  end.

Definition hex (c : N) : option N :=
  if ((48 <=? c) && (c <=? 57))%N then Some (c - 48)%N
  else if ((65 <=? c) && (c <=? 70))%N then Some (c - 55)%N
  else if ((97 <=? c) && (c <=? 102))%N then Some (c - 87)%N
  else None.

(** The code unit a one-letter escape stands for. *)
Definition escape (c : N) : option N :=
  if (c =? 34)%N then Some 34%N          (* quote *)
  else if (c =? 92)%N then Some 92%N     (* backslash *)
  else if (c =? 47)%N then Some 47%N     (* slash *)
  else if (c =? 98)%N then Some 8%N      (* b *)
  else if (c =? 102)%N then Some 12%N    (* f *)
  else if (c =? 110)%N then Some 10%N    (* n *)
  else if (c =? 114)%N then Some 13%N    (* r *)
  else if (c =? 116)%N then Some 9%N     (* t *)
  else None.

Definition cons_unit (c : N) (r : option (jsstring * jsstring))
  : option (jsstring * jsstring) :=
  match r with
  | Some (body, rest) => Some (c :: body, rest)
  | None => None
  end.

(** A string after its opening quote: the characters up to the closing
    quote, and what follows it. *)
Fixpoint string_body (s : jsstring) : option (jsstring * jsstring) :=
  match s with
  | [] => None
  | c :: s1 =>
    if (c =? 34)%N then Some ([], s1)
    else if (c =? 92)%N then
      match s1 with
      | [] => None
      | e :: s2 =>
        if (e =? 117)%N then
          match s2 with
          | h1 :: h2 :: h3 :: h4 :: s3 =>
            match hex h1, hex h2, hex h3, hex h4 with
            | Some a, Some b, Some c', Some d =>
              cons_unit (((a * 16 + b) * 16 + c') * 16 + d)%N (string_body s3)
            | _, _, _, _ => None
            end
          | _ => None
          end
        else
          match escape e with
          | Some u => cons_unit u (string_body s2)
          | None => None
          end
      end
    else if (c <? 32)%N then None
    else cons_unit c (string_body s1)
  end.

(** [a / b] rounded to the nearest integer, a tie going to the even one
    ([0 <= a], [0 < b]). *)
Definition round_half_even (a b : Z) : Z :=
  let m := (a / b)%Z in
  match (2 * (a mod b) ?= b)%Z with
  | Lt => m
  | Gt => (m + 1)%Z
  | Eq => if Z.even m then m else (m + 1)%Z
  end.

(** The integer part of the binary logarithm of [n / d] ([0 < n], [0 < d]). *)
Definition floor_log2 (n d : Z) : Z :=
  let e := (Z.log2 n - Z.log2 d)%Z in
  let below :=
    if (0 <=? e)%Z then (n <? d * 2 ^ e)%Z else (n * 2 ^ (- e) <? d)%Z in
  if below then (e - 1)%Z else e.

(** The double nearest to [n / d] ([0 < n], [0 < d]): 53 bits of mantissa,
    no exponent under -1074, and [None] once the rounded value reaches
    [2^1024]. *)
Definition nearest_double (n d : Z) : option Q :=
  let p := Z.max (floor_log2 n d - 52) (-1074) in
  if (0 <=? p)%Z then
    let m := round_half_even n (d * 2 ^ p) in
    if (2 ^ 1024 <=? m * 2 ^ p)%Z then None else Some (inject_Z (m * 2 ^ p))
  else
    let m := round_half_even (n * 2 ^ (- p)) d in
    Some (Qred (Qmake m (Z.to_pos (2 ^ (- p))))).

(** The number value of the literal [m * 10^e], [m] without its sign.  The
    sign of a zero is not kept: nothing in this program tells [-0] from [0]. *)
Definition number_value (negative : bool) (m e : Z) : value :=
  if (m =? 0)%Z then VNum 0 else
  let '(n, d) := if (0 <=? e)%Z then ((m * 10 ^ e)%Z, 1%Z) else (m, (10 ^ (- e))%Z) in
  match nearest_double n d with
  | Some q => VNum (if negative then - q else q)
  | None => VInf negative
  end.

Definition sign (s : jsstring) : bool * jsstring :=
  match s with
  | c :: s' => if (c =? 45)%N then (true, s') else (false, s)
  | [] => (false, [])
  end.

Definition fraction (int : Z) (s : jsstring) : option (Z * nat * jsstring) :=
  match s with
  | c :: s' =>
    if (c =? 46)%N then
      match digits int 0 s' with
      | (_, O, _) => None
      | r => Some r
      end
    else Some (int, O, s)
  | [] => Some (int, O, [])
  end.

Definition exponent (s : jsstring) : option (Z * jsstring) :=
  match s with
  | c :: s' =>
    if ((c =? 101) || (c =? 69))%N then
      let '(neg, s'') :=
        match s' with
        | c' :: t => if (c' =? 43)%N then (false, t) else sign s'
        | [] => (false, [])
        end in
      match digits 0 0 s'' with
      | (_, O, _) => None
      | (x, _, rest) => Some (if neg then (- x)%Z else x, rest)
      end
    else Some (0%Z, s)
  | [] => Some (0%Z, [])
  end.

Definition number (s : jsstring) : option (value * jsstring) :=
  let '(neg, s1) := sign s in
  match s1 with
  | [] => None
  | c :: s2 =>
    match digit c with
    | None => None
    | Some d =>
      let '(int, _, s3) := if (d =? 0)%Z then (0%Z, 1%nat, s2) else digits d 1 s2 in
      match fraction int s3 with
      | None => None
      | Some (m, k, s4) =>
        match exponent s4 with
        | None => None
        | Some (x, s5) =>
          Some (number_value neg m (x - Z.of_nat k), s5)
        end
      end
    end
  end.

Definition literal (word : jsstring) (v : value) (s : jsstring)
  : option (value * jsstring) :=
  match remove_prefix word s with
  | Some rest => Some (v, rest)
  | None => None
  end.

(** A repeated key keeps its first place and takes the last value. *)
Definition object_of (members : list (jsstring * value)) : object :=
  fold_left (fun o kv => own_set (fst kv) (snd kv) o) members [].

Fixpoint parse_value (fuel : nat) (s : jsstring) : option (value * jsstring) :=
  match fuel with
  | O => None
  | S fuel =>
    match skip_ws s with
    | [] => None
    | c :: s1 =>
      if (c =? 91)%N then                                   (* [ *)
        match skip_ws s1 with
        | c' :: s2 =>
          if (c' =? 93)%N then Some (VArr [], s2)
          else
            match parse_elements fuel s1 with
            | Some (vs, rest) => Some (VArr vs, rest)
            | None => None
            end
        | [] => None
        end
      else if (c =? 123)%N then                             (* { *)
        match skip_ws s1 with
        | c' :: s2 =>
          if (c' =? 125)%N then Some (VObj [], s2)
          else
            match parse_members fuel s1 with
            | Some (ms, rest) => Some (VObj (object_of ms), rest)
            | None => None
            end
        | [] => None
        end
      else if (c =? 34)%N then
        match string_body s1 with
        | Some (str, rest) => Some (VStr str, rest)
        | None => None
        end
      else if (c =? 116)%N then literal (js "true") (VBool true) (c :: s1)
      else if (c =? 102)%N then literal (js "false") (VBool false) (c :: s1)
      else if (c =? 110)%N then literal (js "null") VNull (c :: s1)
      else
        number (c :: s1)
    end
  end
with parse_elements (fuel : nat) (s : jsstring) : option (list value * jsstring) :=
  match fuel with
  | O => None
  | S fuel =>
    match parse_value fuel s with
    | None => None
    | Some (v, s1) =>
      match skip_ws s1 with
      | c :: s2 =>
        if (c =? 44)%N then
          match parse_elements fuel s2 with
          | Some (vs, rest) => Some (v :: vs, rest)
          | None => None
          end
        else if (c =? 93)%N then Some ([v], s2)
        else None
      | [] => None
      end
    end
  end
with parse_members (fuel : nat) (s : jsstring)
  : option (list (jsstring * value) * jsstring) :=
  match fuel with
  | O => None
  | S fuel =>
    match skip_ws s with
    | q :: s1 =>
      if (q =? 34)%N then
        match string_body s1 with
        | None => None
        | Some (key, s2) =>
          match skip_ws s2 with
          | c :: s3 =>
            if (c =? 58)%N then
              match parse_value fuel s3 with
              | None => None
              | Some (v, s4) =>
                match skip_ws s4 with
                | c' :: s5 =>
                  if (c' =? 44)%N then
                    match parse_members fuel s5 with
                    | Some (ms, rest) => Some ((key, v) :: ms, rest)
                    | None => None
                    end
                  else if (c' =? 125)%N then Some ([(key, v)], s5)
                  else None
                | [] => None
                end
              end
            else None
          | [] => None
          end
        end
      else None
    | [] => None
    end
  end.

(** [JSON.parse(text)]: the value, or [None] where it raises a SyntaxError.
    The fuel is twice the length of the text. *)
Definition parse (text : jsstring) : option value :=
  match parse_value (2 * length text + 2) text with
  | Some (v, rest) =>
    match skip_ws rest with
    | [] => Some v
    | _ :: _ => None
    end
  | None => None
  end.

(** Texts are written with an apostrophe standing for the double quote. *)
Definition quoted (s : string) : jsstring :=
  List.map (fun c => if (c =? 39)%N then 34%N else c) (js s).

End JSON.

(* ===================================================================== *)
(** ** types.ts                                                            *)
(* ===================================================================== *)

Module WeatherCondition.
Inductive t := SUNNY | RAINY | CLOUDY | SNOWY | HOT | COLD.

(** The member's runtime value. *)
Definition label (c : t) : jsstring :=
  match c with
  | SUNNY => js "맑음"
  | RAINY => js "비"
  | CLOUDY => js "흐림"
  | SNOWY => js "눈"
  | HOT => js "더움"
  | COLD => js "추움"
  end.

(** [Object.values(WeatherCondition)], in declaration order. *)
Definition values : list t := [SUNNY; RAINY; CLOUDY; SNOWY; HOT; COLD].

(** The member of [values] that [v] is: [Some] exactly when
    [Object.values(WeatherCondition).includes(v)]. *)
Definition of_value (v : value) : option t :=
  match v with
  | VStr s => find (fun c => jsstring_eqb s (label c)) values
  | _ => None
  end.
End WeatherCondition.

Module MealTime.
Inductive t := BREAKFAST | LUNCH | DINNER | SNACK.
End MealTime.

Module FoodPreference.
Inductive t := SPICY | MILD | SOUP | LIGHT | HEAVY.
End FoodPreference.

(** A temperature as [Math.round] leaves it: an integer, or the infinity it
    was given. *)
Inductive Rounded :=
| Integer (z : Z)
| Unbounded (negative : bool).
Bind Scope Z_scope with Rounded.
Coercion Integer : Z >-> Rounded.

Record WeatherInfo := {
  condition : WeatherCondition.t;
  temperature : Rounded
}.

(** [Recommendation\[\]] is an unchecked cast of parsed JSON: its members are
    arbitrary values.  A [FinalRecommendation] is built by an object literal. *)
Definition Recommendation := value.
Definition FinalRecommendation := object.

Module Step.
Inductive AppStep :=
| welcome | gettingWeather | manualWeather | preferences | loading | result | error.
End Step.

(* ===================================================================== *)
(** ** services/geminiService.ts                                           *)
(* ===================================================================== *)

(** What awaiting [ai.models.generateContent] gives: a rejection, or a
    response whose [text] is a string or [undefined]. *)
Inductive GenerateContentResult :=
| Rejected
| Resolved (text : option jsstring).

(** What awaiting [ai.models.generateImages] gives. *)
Record Image := { imageBytes : option jsstring }.
Record GeneratedImage := { image : option Image }.
Inductive GenerateImagesResult :=
| ImagesRejected
| ImagesResolved (generatedImages : option (list GeneratedImage)).

Definition await (r : GenerateContentResult) : completion (option jsstring) :=
  match r with
  | Rejected => Throw Rejection
  | Resolved text => Return text
  end.

Definition fence_open : jsstring := js "```json" ++ [10%N].
Definition fence_close : jsstring := 10%N :: js "```".

Definition fallback_weather : WeatherInfo :=
  {| condition := WeatherCondition.CLOUDY; temperature := 20 |}.

Section Services.

(** [JSON.parse]: [None] stands for its SyntaxError. *)
Variable JSON_parse : jsstring -> option value.

Definition parse_or_throw (text : jsstring) : completion value :=
  match JSON_parse text with
  | Some v => Return v
  | None => Throw SyntaxError
  end.

(** The quick validation of the first item. *)
Definition first_item_invalid (firstItem : value) : completion bool :=
  let* foodName := get firstItem (js "foodName") in
  if negb (truthy foodName) then Return true else
  let* reason := get firstItem (js "reason") in
  if negb (truthy reason) then Return true else
  let* familiarity := get firstItem (js "familiarity") in
  match familiarity with
  | VUndefined => Return true
  | _ => Return false
  end.

(** The four arguments only shape the prompt; the model's answer is
    [response]. *)
Definition getFoodRecommendation
    (weather : option WeatherInfo) (mealTime : MealTime.t)
    (foodPreference : FoodPreference.t) (familiarityRatings : gmap jsstring value)
    (response : GenerateContentResult) : completion (list Recommendation) :=
  try_catch
    (let* jsonString := await response in
     let* parsedResponse := parse_or_throw (ToString jsonString) in
     match parsedResponse with
     | VArr (firstItem :: rest) =>
       let* invalid := first_item_invalid firstItem in
       if invalid
       then Throw (Error (js "Invalid response format from Gemini API"))
       else Return (firstItem :: rest)
     | _ => Throw (Error (js "Invalid response format: expected an array."))
     end)
    (fun _ => Throw (Error (js "Failed to get food recommendation from Gemini API."))).

(** The prompt is a template literal over [foodName], built before the
    [try]: its ToString may raise. *)
Definition generateFoodImage (foodName : value) (response : GenerateImagesResult)
  : completion jsstring :=
  if ToString_raises foodName then Throw TypeError else
  try_catch
    (match response with
     | ImagesRejected => Throw Rejection
     | ImagesResolved (Some (first :: _)) =>
       match image first with
       | Some img => Return (js "data:image/jpeg;base64," ++ ToString (imageBytes img))
       | None => Throw TypeError
       end
     | ImagesResolved _ => Throw (Error (js "No image was generated."))
     end)
    (fun _ => Throw (Error (js "Failed to generate food image from Gemini API."))).

(** [lat] and [lon] only shape the prompt. *)
Definition getWeatherFromCoordinates (lat lon : Q) (response : GenerateContentResult)
  : completion WeatherInfo :=
  try_catch
    (let* text := await response in
     match text with
     | None => Throw TypeError                     (* undefined.trim() *)
     | Some text =>
       let responseText := trim text in
       let jsonString :=
         replace_at_end fence_close (replace_at_start fence_open responseText) in
       let* parsed := parse_or_throw jsonString in
       let* condition := get parsed (js "condition") in
       match (if truthy condition then WeatherCondition.of_value condition else None) with
       | Some c =>
         let* temperature := get parsed (js "temperature") in
         match temperature with
         | VNum t => Return {| condition := c; temperature := Math_round t |}
         | VInf negative =>
           Return {| condition := c; temperature := Unbounded negative |}
         | _ => Return fallback_weather
         end
       | None => Return fallback_weather
       end
     end)
    (fun _ => Return fallback_weather).

End Services.

(* ===================================================================== *)
(** ** App.tsx                                                             *)
(* ===================================================================== *)

Import Step.

(** The component's state: one field per [useState] hook.  The rating holds
    whatever [familiarity] the response carried, so it is a [value], with
    [VNull] for [null]. *)
Record AppState := {
  step : AppStep;
  weather : option WeatherInfo;
  mealTime : option MealTime.t;
  foodPreference : option FoodPreference.t;
  recommendations : option (list FinalRecommendation);
  error : option jsstring;
  familiarityRatings : gmap jsstring value;
  currentUserRating : value
}.

Definition initialState : AppState :=
  {| step := welcome; weather := None; mealTime := None; foodPreference := None;
     recommendations := None; error := None; familiarityRatings := ∅;
     currentUserRating := VNull |}.

(** A handler runs against the state; the updates it made stay when it
    raises. *)
Definition action (A : Type) := AppState -> completion A * AppState.

Definition ret {A} (a : A) : action A := fun st => (Return a, st).

Definition lift {A} (c : completion A) : action A := fun st => (c, st).

Definition and_then {A B} (m : action A) (k : A -> action B) : action B :=
  fun st =>
    match m st with
    | (Return a, st') => k a st'
    | (Throw e, st') => (Throw e, st')
    end.

Definition try_ {A} (body : action A) (handler : exn -> action A) : action A :=
  fun st =>
    match body st with
    | (Return a, st') => (Return a, st')
    | (Throw e, st') => handler e st'
    end.

Notation "'do*' x ':=' m 'in' k" := (and_then m (fun x => k))
  (at level 10, x name, k at level 200).
Notation "m >> k" := (and_then m (fun _ => k))
  (at level 60, right associativity).

(** The state a handler leaves. *)
Definition run {A} (m : action A) (st : AppState) : AppState := snd (m st).

Definition setStep (s : AppStep) : action unit := fun st =>
  (Return tt,
   {| step := s; weather := weather st; mealTime := mealTime st;
      foodPreference := foodPreference st; recommendations := recommendations st;
      error := error st; familiarityRatings := familiarityRatings st;
      currentUserRating := currentUserRating st |}).

Definition setWeather (w : option WeatherInfo) : action unit := fun st =>
  (Return tt,
   {| step := step st; weather := w; mealTime := mealTime st;
      foodPreference := foodPreference st; recommendations := recommendations st;
      error := error st; familiarityRatings := familiarityRatings st;
      currentUserRating := currentUserRating st |}).

Definition setMealTime (m : option MealTime.t) : action unit := fun st =>
  (Return tt,
   {| step := step st; weather := weather st; mealTime := m;
      foodPreference := foodPreference st; recommendations := recommendations st;
      error := error st; familiarityRatings := familiarityRatings st;
      currentUserRating := currentUserRating st |}).

Definition setFoodPreference (f : option FoodPreference.t) : action unit := fun st =>
  (Return tt,
   {| step := step st; weather := weather st; mealTime := mealTime st;
      foodPreference := f; recommendations := recommendations st;
      error := error st; familiarityRatings := familiarityRatings st;
      currentUserRating := currentUserRating st |}).

Definition setRecommendations (r : option (list FinalRecommendation)) : action unit :=
  fun st =>
  (Return tt,
   {| step := step st; weather := weather st; mealTime := mealTime st;
      foodPreference := foodPreference st; recommendations := r;
      error := error st; familiarityRatings := familiarityRatings st;
      currentUserRating := currentUserRating st |}).

Definition setError (e : option jsstring) : action unit := fun st =>
  (Return tt,
   {| step := step st; weather := weather st; mealTime := mealTime st;
      foodPreference := foodPreference st; recommendations := recommendations st;
      error := e; familiarityRatings := familiarityRatings st;
      currentUserRating := currentUserRating st |}).

(** The updater form: [setFamiliarityRatings(prevRatings => ...)]. *)
Definition setFamiliarityRatings (f : gmap jsstring value -> gmap jsstring value)
  : action unit := fun st =>
  (Return tt,
   {| step := step st; weather := weather st; mealTime := mealTime st;
      foodPreference := foodPreference st; recommendations := recommendations st;
      error := error st; familiarityRatings := f (familiarityRatings st);
      currentUserRating := currentUserRating st |}).

Definition setCurrentUserRating (r : value) : action unit := fun st =>
  (Return tt,
   {| step := step st; weather := weather st; mealTime := mealTime st;
      foodPreference := foodPreference st; recommendations := recommendations st;
      error := error st; familiarityRatings := familiarityRatings st;
      currentUserRating := r |}).

(** What [navigator.geolocation] does for the effect: it is missing, it
    calls the error callback, or it calls the success callback. *)
Inductive GeolocationResult :=
| Unsupported
| PositionError (message : jsstring)
| Position (latitude longitude : Q).

Definition generic_error_message : jsstring :=
  js "추천을 생성하는 데 실패했습니다. 잠시 후 다시 시도해 주세요.".

(** [array.map((rec, index) => ...)] *)
Definition map_indexed {A B} (f : A -> nat -> B) (l : list A) : list B :=
  List.map (fun p => f (snd p) (fst p)) (indexed 0 l).

Section App.

Variable JSON_parse : jsstring -> option value.

(** ToString of a computed property key that is not a string (number
    formatting and the conversion of arrays and objects are the engine's). *)
Variable ToString_key : value -> jsstring.

Definition ToPropertyKey (v : value) : jsstring :=
  match v with
  | VStr s => s
  | _ => ToString_key v
  end.

Definition handleStart : action unit := setStep gettingWeather.

(** The effect that runs when [step] changes. *)
Definition gettingWeatherEffect (geo : GeolocationResult)
    (response : GenerateContentResult) : action unit := fun st =>
  match step st with
  | gettingWeather =>
    match geo with
    | Unsupported => setStep manualWeather st
    | Position latitude longitude =>
      try_
        (do* weatherInfo :=
           lift (getWeatherFromCoordinates JSON_parse latitude longitude response) in
         setWeather (Some weatherInfo) >>
         setStep preferences)
        (fun err => setStep manualWeather) st
    | PositionError _ => setStep manualWeather st
    end
  | _ => (Return tt, st)
  end.

Definition handleManualWeatherSelect (condition : WeatherCondition.t) : action unit :=
  let temperature :=
    match condition with
    | WeatherCondition.HOT => 30
    | WeatherCondition.COLD => 5
    | WeatherCondition.SNOWY => -2
    | WeatherCondition.RAINY => 15
    | _ => 20
    end%Z in
  setWeather (Some {| condition := condition; temperature := temperature |}) >>
  setStep preferences.

Definition handlePreferencesSubmit (recommendationResponse : GenerateContentResult)
    (imageResponse : GenerateImagesResult) : action unit := fun st =>
  match mealTime st, foodPreference st with
  | Some mt, Some fp =>
    (setStep loading >>
     setError None >>
     try_
       (do* textRecommendations :=
          lift (getFoodRecommendation JSON_parse (weather st) mt fp
                  (familiarityRatings st) recommendationResponse) in
        match textRecommendations with
        | [] => lift (Throw (Error (js "Received no recommendations.")))
        | primaryRecommendation :: _ =>
          do* familiarity := lift (get primaryRecommendation (js "familiarity")) in
          setCurrentUserRating familiarity >>
          do* foodName := lift (get primaryRecommendation (js "foodName")) in
          do* imageUrl := lift (generateFoodImage foodName imageResponse) in
          let finalRecommendations :=
            map_indexed
              (fun rec index =>
                 own_set (js "imageUrl")
                   (VStr (if (index =? 0)%nat then imageUrl else js ""))
                   (spread rec))
              textRecommendations in
          setRecommendations (Some finalRecommendations) >>
          setStep result
        end)
       (fun err =>
          setError (Some generic_error_message) >>
          setStep Step.error)) st
  | _, _ => (Return tt, st)
  end.

Definition resetAndSaveRating : action unit := fun st =>
  ((match recommendations st, currentUserRating st with
    | Some [], _ | None, _ | _, VNull => ret tt
    | Some (first :: _), rating =>
      let foodName := own_get (js "foodName") first in
      setFamiliarityRatings
        (fun prevRatings => <[ToPropertyKey foodName := rating]> prevRatings)
    end) >>
   setStep welcome >>
   setWeather None >>
   setMealTime None >>
   setFoodPreference None >>
   setRecommendations None >>
   setCurrentUserRating VNull >>
   setError None) st.

Definition resetFromError : action unit :=
  setStep welcome >>
  setWeather None >>
  setMealTime None >>
  setFoodPreference None >>
  setRecommendations None >>
  setCurrentUserRating VNull >>
  setError None.

End App.

(* ===================================================================== *)
(** ** Predicates the statements use                                       *)
(* ===================================================================== *)

(** The first item has a truthy [foodName], a truthy [reason] and a
    [familiarity] that is not [undefined]. *)
Definition first_item_well_formed (firstItem : value) : Prop :=
  exists foodName reason familiarity,
    get firstItem (js "foodName") = Return foodName /\ truthy foodName = true /\
    get firstItem (js "reason") = Return reason /\ truthy reason = true /\
    get firstItem (js "familiarity") = Return familiarity /\
    familiarity <> VUndefined.

(** The response is a text that parses to a non-empty array whose first
    item passes the quick validation. *)
Definition response_accepted (JSON_parse : jsstring -> option value)
    (response : GenerateContentResult) (items : list value) : Prop :=
  exists text firstItem rest,
    response = Resolved text /\
    JSON_parse (ToString text) = Some (VArr items) /\
    items = firstItem :: rest /\
    first_item_well_formed firstItem.

(** An integer from 1 to 5. *)
Definition familiarity_score (v : value) : bool :=
  match v with
  | VNum q => existsb (fun n => Qeq_bool q (inject_Z n)) [1; 2; 3; 4; 5]%Z
  | _ => false
  end.

Definition recommendation_failure : exn :=
  Error (js "Failed to get food recommendation from Gemini API.").

(** The text handed to [JSON.parse] by [getWeatherFromCoordinates]. *)
Definition unfenced (text : jsstring) : jsstring :=
  replace_at_end fence_close (replace_at_start fence_open (trim text)).

(** The weather response carries one of the six labels and a number. *)
Definition weather_response (JSON_parse : jsstring -> option value)
    (response : GenerateContentResult) (c : WeatherCondition.t) (t : Q) : Prop :=
  exists text parsed,
    response = Resolved (Some text) /\
    JSON_parse (unfenced text) = Some parsed /\
    get parsed (js "condition") = Return (VStr (WeatherCondition.label c)) /\
    get parsed (js "temperature") = Return (VNum t).

(** The weather response carries one of the six labels and an infinite
    number. *)
Definition weather_overflow (JSON_parse : jsstring -> option value)
    (response : GenerateContentResult) (c : WeatherCondition.t) (negative : bool)
  : Prop :=
  exists text parsed,
    response = Resolved (Some text) /\
    JSON_parse (unfenced text) = Some parsed /\
    get parsed (js "condition") = Return (VStr (WeatherCondition.label c)) /\
    get parsed (js "temperature") = Return (VInf negative).



(** The weather-inference call fails: the request is rejected, the response
    has no text, or the text does not parse. *)
Definition weather_call_fails (JSON_parse : jsstring -> option value)
    (response : GenerateContentResult) : Prop :=
  response = Rejected \/ response = Resolved None \/
  exists text, response = Resolved (Some text) /\ JSON_parse (unfenced text) = None.

(** The error screen reached from [st], with [rating] as the current rating. *)
Definition error_screen (st : AppState) (rating : value) : AppState :=
  {| step := Step.error; weather := weather st; mealTime := mealTime st;
     foodPreference := foodPreference st; recommendations := recommendations st;
     error := Some generic_error_message;
     familiarityRatings := familiarityRatings st; currentUserRating := rating |}.

(** The result screen reached from [st]. *)
Definition result_screen (st : AppState) (rating : value)
    (finals : list FinalRecommendation) : AppState :=
  {| step := result; weather := weather st; mealTime := mealTime st;
     foodPreference := foodPreference st; recommendations := Some finals;
     error := None;
     familiarityRatings := familiarityRatings st; currentUserRating := rating |}.

(** [{...rec, imageUrl}] *)
Definition with_image (imageUrl : jsstring) (rec : Recommendation)
  : FinalRecommendation :=
  own_set (js "imageUrl") (VStr imageUrl) (spread rec).

(* ===================================================================== *)
(** ** Sample responses and states                                         *)
(* ===================================================================== *)

Module Sample.

Definition item (foodName reason : string) (familiarity : Z) : value :=
  VObj [(js "foodName", VStr (js foodName)); (js "reason", VStr (js reason));
        (js "familiarity", VNum (inject_Z familiarity))].

(** One well-formed recommendation, then [null]. *)
Definition two_items : jsstring :=
  JSON.quoted "[{'foodName':'김치찌개','reason':'비 오는 날엔 국물','familiarity':5}, null]".

(** A single recommendation. *)
Definition one_item : jsstring :=
  JSON.quoted "[{'foodName':'김치찌개','reason':'비 오는 날엔 국물','familiarity':5}]".

(** A familiarity of 7, then an object with no familiarity at all. *)
Definition off_scale : jsstring :=
  JSON.quoted "[{'foodName':'수정과','reason':'달콤한 마무리','familiarity':7}, {}]".

Definition sunny : jsstring :=
  JSON.quoted "{'condition': '맑음', 'temperature': 25.5}".

(** A temperature literal beyond the range of a double. *)
Definition sunny_overflow : jsstring :=
  JSON.quoted "{'condition': '맑음', 'temperature': 1e400}".


(** The weather answer inside a markdown fence, with a trailing blank. *)
Definition fenced_snowy : jsstring :=
  fence_open ++ JSON.quoted "{'condition': '눈', 'temperature': -3}"
  ++ fence_close ++ js " ".

Definition one_image : GenerateImagesResult :=
  ImagesResolved (Some [{| image := Some {| imageBytes := Some (js "QUJD") |} |}]).

(** The preferences screen with both choices made. *)
Definition ready : AppState :=
  {| step := preferences; weather := None;
     mealTime := Some MealTime.LUNCH; foodPreference := Some FoodPreference.SOUP;
     recommendations := None; error := None; familiarityRatings := ∅;
     currentUserRating := VNull |}.

(** A result screen: one recommendation, the rating moved to 2, and an
    older rating in the table. *)
Definition rated : AppState :=
  {| step := result; weather := None;
     mealTime := Some MealTime.LUNCH; foodPreference := Some FoodPreference.SOUP;
     recommendations :=
       Some [own_set (js "imageUrl") (VStr (js "data:image/jpeg;base64,QUJD"))
               (spread (item "김치찌개" "비 오는 날엔 국물" 5))];
     error := None;
     familiarityRatings := {[ js "비빔밥" := VNum (inject_Z 4) ]};
     currentUserRating := VNum (inject_Z 2) |}.

(** A stand-in for the engine's ToString on keys that are not strings. *)
Definition key_of (v : value) : jsstring := js "[object Object]".

End Sample.

(* ===================================================================== *)
(** ** components/FamiliarityRating.tsx                                    *)
(* ===================================================================== *)

Module FamiliarityRating.

Definition maxScore : Q := 5.

Definition labels : list jsstring :=
  [js "매우 생소함"; js "생소함"; js "보통"; js "익숙함"; js "매우 익숙함"].

(** [array\[k\]] for a number [k]: the element at [k] when [k] is an integer
    within the array, [undefined] otherwise. *)
Definition at_index {A} (l : list A) (k : Q) : option A :=
  if Qeq_bool k (inject_Z (Qfloor k)) && (0 <=? Qfloor k)%Z
  then nth_error l (Z.to_nat (Qfloor k))
  else None.

(** [labels\[score - 1\]] *)
Definition label (score : Q) : option jsstring := at_index labels (score - 1).

(** [!!onScoreChange] *)
Definition isInteractive {A} (onScoreChange : option A) : bool :=
  match onScoreChange with
  | Some _ => true
  | None => false
  end.

(** The filled share of the bar, in percent. *)
Definition width (score : Q) : Q := score / maxScore * 100.

(** [newScore] is [Number(event.target.value)]. *)
Definition handleSliderChange (onScoreChange : option (Q -> action unit))
    (newScore : Q) : action unit :=
  match onScoreChange with
  | Some callback => callback newScore
  | None => ret tt
  end.

End FamiliarityRating.

(* ===================================================================== *)
(** ** App.tsx: the page and its controls                                  *)
(* ===================================================================== *)

(** [Object.values(MealTime)] and [Object.values(FoodPreference)]. *)
Definition mealTimeOptions : list MealTime.t :=
  [MealTime.BREAKFAST; MealTime.LUNCH; MealTime.DINNER; MealTime.SNACK].

Definition foodPrefOptions : list FoodPreference.t :=
  [FoodPreference.SPICY; FoodPreference.MILD; FoodPreference.SOUP;
   FoodPreference.LIGHT; FoodPreference.HEAVY].

#[global] Instance WeatherCondition_eq_dec : EqDecision WeatherCondition.t.
Proof. solve_decision. Defined.

#[global] Instance MealTime_eq_dec : EqDecision MealTime.t.
Proof. solve_decision. Defined.

#[global] Instance FoodPreference_eq_dec : EqDecision FoodPreference.t.
Proof. solve_decision. Defined.

(** What [renderContent] returns, without the styling: the screen, the data
    it shows and the controls it carries.  A selection button is its value
    and its [isSelected] flag. *)
Inductive View :=
| WelcomeView
| GettingWeatherView
| ManualWeatherView (weatherOptions : list WeatherCondition.t)
| PreferencesView (shownWeather : option WeatherInfo)
    (mealTimeButtons : list (MealTime.t * bool))
    (foodPrefButtons : list (FoodPreference.t * bool))
    (submitDisabled : bool)
| LoadingView
| ResultView (shownWeather : option WeatherInfo) (shownMealTime : option MealTime.t)
    (primary : FinalRecommendation) (score : value)
    (others : list FinalRecommendation)
| ErrorView (message : option jsstring)
| Null.

Definition renderContent (st : AppState) : View :=
  match step st with
  | welcome => WelcomeView
  | gettingWeather => GettingWeatherView
  | manualWeather => ManualWeatherView WeatherCondition.values
  | preferences =>
    PreferencesView (weather st)
      (List.map (fun mt => (mt, bool_decide (mealTime st = Some mt))) mealTimeOptions)
      (List.map (fun fp => (fp, bool_decide (foodPreference st = Some fp)))
         foodPrefOptions)
      (match mealTime st, foodPreference st with
       | Some _, Some _ => false
       | _, _ => true
       end)
  | loading => LoadingView
  | result =>
    match recommendations st, currentUserRating st with
    | None, _ | Some [], _ | _, VNull => Null
    | Some (primary :: others), score =>
      ResultView (weather st) (mealTime st) primary score others
    end
  | Step.error => ErrorView (error st)
  end.

(** What can happen next: a click on a control, a move of the slider, or
    the geolocation service and the weather call settling for the effect. *)
Inductive Event :=
| ClickStart
| WeatherSettled (geo : GeolocationResult) (response : GenerateContentResult)
| ClickWeather (condition : WeatherCondition.t)
| ClickMealTime (mt : MealTime.t)
| ClickFoodPreference (fp : FoodPreference.t)
| ClickSubmit (recommendationResponse : GenerateContentResult)
    (imageResponse : GenerateImagesResult)
| SlideScore (newScore : Q)
| ClickSaveAndRetry
| ClickBackToStart.

(** The events a view allows: its buttons, the interactive slider of the
    primary recommendation, and the effect of the getting-weather step. *)
Definition offered (v : View) (e : Event) : bool :=
  match v, e with
  | WelcomeView, ClickStart => true
  | GettingWeatherView, WeatherSettled _ _ => true
  | ManualWeatherView options, ClickWeather c => bool_decide (c ∈ options)
  | PreferencesView _ buttons _ _, ClickMealTime mt => bool_decide (mt ∈ buttons.*1)
  | PreferencesView _ _ buttons _, ClickFoodPreference fp =>
    bool_decide (fp ∈ buttons.*1)
  | PreferencesView _ _ _ disabled, ClickSubmit _ _ => negb disabled
  | ResultView _ _ _ _ _, SlideScore _ => true
  | ResultView _ _ _ _ _, ClickSaveAndRetry => true
  | ErrorView _, ClickBackToStart => true
  | _, _ => false
  end.

Section Session.

Variable JSON_parse : jsstring -> option value.
Variable ToString_key : value -> jsstring.

(** The handler each event is wired to. *)
Definition handle (e : Event) : action unit :=
  match e with
  | ClickStart => handleStart
  | WeatherSettled geo response => gettingWeatherEffect JSON_parse geo response
  | ClickWeather c => handleManualWeatherSelect c
  | ClickMealTime mt => setMealTime (Some mt)
  | ClickFoodPreference fp => setFoodPreference (Some fp)
  | ClickSubmit recommendationResponse imageResponse =>
    handlePreferencesSubmit JSON_parse recommendationResponse imageResponse
  | SlideScore newScore =>
    FamiliarityRating.handleSliderChange
      (Some (fun score => setCurrentUserRating (VNum score))) newScore
  | ClickSaveAndRetry => resetAndSaveRating ToString_key
  | ClickBackToStart => resetFromError
  end.

(** The states the page can be in between two events. *)
Inductive reachable : AppState -> Prop :=
| reachable_initial : reachable initialState
| reachable_event (st : AppState) (e : Event) :
    reachable st ->
    offered (renderContent st) e = true ->
    reachable (run (handle e) st).

End Session.

(** No session field is set. *)
Definition cleared (st : AppState) : Prop :=
  weather st = None /\ mealTime st = None /\ foodPreference st = None /\
  recommendations st = None /\ error st = None /\ currentUserRating st = VNull.

(** The recommendations of a result screen: the first has a truthy name and
    a data URL as image, the others have the empty string as image. *)
Definition shown_recommendations (top : FinalRecommendation)
    (rest : list FinalRecommendation) : Prop :=
  truthy (own_get (js "foodName") top) = true /\
  (exists bytes,
      own_get (js "imageUrl") top = VStr (js "data:image/jpeg;base64," ++ bytes)) /\
  Forall (fun final => own_get (js "imageUrl") final = VStr (js "")) rest.

(** What holds of the state between two events, step by step. *)
Definition session_invariant (st : AppState) : Prop :=
  match step st with
  | welcome | gettingWeather | manualWeather => cleared st
  | preferences =>
    weather st <> None /\ recommendations st = None /\ error st = None /\
    currentUserRating st = VNull
  | loading => False
  | result =>
    weather st <> None /\ mealTime st <> None /\ foodPreference st <> None /\
    error st = None /\ currentUserRating st <> VUndefined /\
    exists top rest,
      recommendations st = Some (top :: rest) /\ shown_recommendations top rest
  | Step.error =>
    weather st <> None /\ mealTime st <> None /\ foodPreference st <> None /\
    error st = Some generic_error_message /\ recommendations st = None
  end.

Definition image_failure : exn :=
  Error (js "Failed to generate food image from Gemini API.").

Module Scenario.

(** A first item whose familiarity is [null]. *)
Definition null_familiarity : jsstring :=
  JSON.quoted "[{'foodName':'신선로','reason':'특별한 날','familiarity':null}]".

(** The events up to the preferences screen with both choices made, the
    geolocation having been refused. *)
Definition to_preferences : list Event :=
  [ClickStart;
   WeatherSettled (PositionError (js "User denied Geolocation")) Rejected;
   ClickWeather WeatherCondition.RAINY;
   ClickMealTime MealTime.LUNCH;
   ClickFoodPreference FoodPreference.SOUP].

Definition play (events : list Event) (st : AppState) : AppState :=
  fold_left (fun st e => run (handle JSON.parse Sample.key_of e) st) events st.

Definition chosen : AppState := play to_preferences initialState.

Definition shown : AppState :=
  play [ClickSubmit (Resolved (Some Sample.two_items)) Sample.one_image] chosen.

Definition failed : AppState :=
  play [ClickSubmit (Resolved (Some (js "[]"))) Sample.one_image] chosen.

Definition blank : AppState :=
  play [ClickSubmit (Resolved (Some null_familiarity)) Sample.one_image] chosen.

End Scenario.

(* ===================================================================== *)
(** ** Strings and objects                                                 *)
(* ===================================================================== *)

Lemma jsstring_eqb_eq (a b : jsstring) : jsstring_eqb a b = true <-> a = b.
Proof.
  revert b. induction a as [|x a IH]; intros [|y b]; simpl; split;
    try congruence; try reflexivity.
  - intros H. apply andb_true_iff in H as [Hx Hab].
    apply N.eqb_eq in Hx. apply IH in Hab. congruence.
  - intros [= -> ->]. rewrite N.eqb_refl. simpl. now apply IH.
Qed.

Lemma jsstring_eqb_refl (a : jsstring) : jsstring_eqb a a = true.
Proof. now apply jsstring_eqb_eq. Qed.

Lemma jsstring_eqb_neq (a b : jsstring) : a <> b -> jsstring_eqb a b = false.
Proof.
  intros H. destruct (jsstring_eqb a b) eqn:E; [|reflexivity].
  apply jsstring_eqb_eq in E. contradiction.
Qed.

Lemma own_get_own_set_eq (k : jsstring) (v : value) (o : object) :
  own_get k (own_set k v o) = v.
Proof.
  induction o as [|[k' v'] o IH]; simpl.
  - now rewrite jsstring_eqb_refl.
  - destruct (jsstring_eqb k k') eqn:E; simpl; rewrite E; [reflexivity | exact IH].
Qed.

Lemma own_get_own_set_ne (k k' : jsstring) (v : value) (o : object) :
  k <> k' -> own_get k' (own_set k v o) = own_get k' o.
Proof.
  intros Hne. induction o as [|[k0 v0] o IH]; simpl.
  - rewrite jsstring_eqb_neq; [reflexivity | congruence].
  - destruct (jsstring_eqb k k0) eqn:E; simpl.
    + apply jsstring_eqb_eq in E. subst k0.
      rewrite jsstring_eqb_neq; [reflexivity | congruence].
    + now rewrite IH.
Qed.

Lemma remove_prefix_app (p s : jsstring) : remove_prefix p (p ++ s) = Some s.
Proof. induction p as [|a p IH]; simpl; [reflexivity|]. now rewrite N.eqb_refl. Qed.

(** A leading fence is removed. *)
Lemma replace_at_start_app (p s : jsstring) : replace_at_start p (p ++ s) = s.
Proof. unfold replace_at_start. now rewrite remove_prefix_app. Qed.

(** A trailing fence is removed. *)
Lemma replace_at_end_app (p s : jsstring) : replace_at_end p (s ++ p) = s.
Proof.
  unfold replace_at_end. rewrite rev_app_distr, replace_at_start_app.
  apply rev_involutive.
Qed.

Lemma indexed_lookup {A} (l : list A) (n i : nat) :
  indexed n l !! i = (fun a => ((n + i)%nat, a)) <$> l !! i.
Proof.
  revert n i. induction l as [|a l IH]; intros n [|i]; simpl; try reflexivity.
  - now rewrite Nat.add_0_r.
  - rewrite IH. now rewrite Nat.add_succ_r.
Qed.

Lemma map_indexed_lookup {A B} (f : A -> nat -> B) (l : list A) (i : nat) :
  map_indexed f l !! i = (fun a => f a i) <$> l !! i.
Proof.
  unfold map_indexed. rewrite list_lookup_fmap, indexed_lookup.
  now destruct (l !! i).
Qed.

Lemma map_indexed_length {A B} (f : A -> nat -> B) (l : list A) :
  length (map_indexed f l) = length l.
Proof.
  unfold map_indexed. rewrite length_map.
  generalize 0%nat. induction l as [|a l IH]; intros n; simpl; [reflexivity|].
  now rewrite IH.
Qed.

(** The built-ins on small inputs. *)
Example trim_both_ends :
  trim ([32; 9; 160] ++ js "a b" ++ [10; 8232; 65279])%N = js "a b".
Proof. reflexivity. Qed.

Example is_trimmed_bounds :
  List.map is_trimmed [8; 9; 13; 14; 8191; 8192; 8202; 8203]%N
  = [false; true; true; false; false; true; true; false].
Proof. reflexivity. Qed.

Example Math_round_ties :
  Math_round (5 # 2) = 3%Z /\ Math_round (-5 # 2) = (-2)%Z /\
  Math_round (-26 # 10) = (-3)%Z /\ Math_round (24 # 10) = 2%Z.
Proof. repeat split. Qed.

Example unfenced_fenced_snowy :
  unfenced Sample.fenced_snowy = JSON.quoted "{'condition': '눈', 'temperature': -3}".
Proof. reflexivity. Qed.

Example unfenced_plain : unfenced Sample.sunny = Sample.sunny.
Proof. reflexivity. Qed.

Example parse_two_items :
  JSON.parse Sample.two_items
  = Some (VArr [Sample.item "김치찌개" "비 오는 날엔 국물" 5; VNull]).
Proof. vm_compute. reflexivity. Qed.

Example parse_rejects :
  List.map JSON.parse
    [js "undefined"; js "[1,]"; js "01"; js "1."; js "tru"; js ""; js "[1] x"]
  = [None; None; None; None; None; None; None].
Proof. vm_compute. reflexivity. Qed.

Example parse_numbers :
  List.map JSON.parse [js "-2.50e1"; js " 1E+2 "; js "-0"; js "25e-1"]
  = [Some (VNum (-25)); Some (VNum 100); Some (VNum 0); Some (VNum (5 # 2))].
Proof. vm_compute. reflexivity. Qed.

(** Literals are rounded to the nearest double: a tie goes to the even
    mantissa, too small a literal gives 0, too large a one an infinity. *)
Example parse_rounds_to_double :
  List.map JSON.parse
    [js "0.1"; js "2.4999999999999999999"; js "9007199254740993";
     js "2e-324"; js "1e400"; js "-1e400"]
  = [Some (VNum (3602879701896397 # 36028797018963968)); Some (VNum (5 # 2));
     Some (VNum 9007199254740992); Some (VNum 0);
     Some (VInf false); Some (VInf true)].
Proof. vm_compute. reflexivity. Qed.

Example parse_repeated_key :
  JSON.parse (JSON.quoted "{'a':1,'b':true,'a':[null]}")
  = Some (VObj [(js "a", VArr [VNull]); (js "b", VBool true)]).
Proof. vm_compute. reflexivity. Qed.

Example spread_examples :
  spread (VStr (js "ab")) = [(js "0", VStr (js "a")); (js "1", VStr (js "b"))] /\
  spread VNull = [] /\
  spread (VArr [VNull; VBool true]) = [(js "0", VNull); (js "1", VBool true)].
Proof. repeat split. Qed.

(* ===================================================================== *)
(** ** getFoodRecommendation                                               *)
(* ===================================================================== *)

Section ServiceFacts.

Variable JSON_parse : jsstring -> option value.

Lemma first_item_invalid_cases (firstItem : value) :
  (first_item_invalid firstItem = Return false /\ first_item_well_formed firstItem) \/
  ((first_item_invalid firstItem = Return true \/
    first_item_invalid firstItem = Throw TypeError) /\
   ~ first_item_well_formed firstItem).
Proof.
  unfold first_item_invalid, first_item_well_formed.
  destruct firstItem as [| |b|q|inf|s|l|o]; simpl;
    try (right; split; [auto|];
         intros (f & r & m & Hf & Tf & _);
         first [discriminate Hf | injection Hf as <-; discriminate Tf]).
  destruct (truthy (own_get (js "foodName") o)) eqn:Ef; simpl.
  2:{ right. split; [auto|]. intros (f & r & m & [= <-] & Tf & _). congruence. }
  destruct (truthy (own_get (js "reason") o)) eqn:Er; simpl.
  2:{ right. split; [auto|].
      intros (f & r & m & _ & _ & [= <-] & Tr & _). congruence. }
  destruct (own_get (js "familiarity") o) eqn:Em;
    try (left; split; [reflexivity|]; do 3 eexists;
         repeat split; eauto; rewrite ?Em; congruence).
  right. split; [auto|].
  intros (f & r & m & _ & _ & _ & _ & Hm & Nm). congruence.
Qed.

Section Call.

Variables (weather : option WeatherInfo) (mealTime : MealTime.t)
  (foodPreference : FoodPreference.t) (familiarityRatings : gmap jsstring value).

#[local] Abbreviation call := (getFoodRecommendation JSON_parse weather mealTime foodPreference
                    familiarityRatings).

(** An accepted response is returned as it was parsed. *)
Lemma getFoodRecommendation_accepts response items :
  response_accepted JSON_parse response items -> call response = Return items.
Proof.
  intros (text & first & rest & -> & Hp & -> & Hw).
  unfold getFoodRecommendation, parse_or_throw. simpl. rewrite Hp. simpl.
  destruct (first_item_invalid_cases first) as [[-> _]|[_ Hn]];
    [reflexivity | contradiction].
Qed.

(** Any other response raises the one generic error. *)
Lemma getFoodRecommendation_rejects response :
  (forall items, ~ response_accepted JSON_parse response items) ->
  call response = Throw recommendation_failure.
Proof.
  intros Hno. unfold getFoodRecommendation, parse_or_throw.
  destruct response as [|text]; simpl; [reflexivity|].
  destruct (JSON_parse (ToString text)) as [[| |b|q|inf|s|[|first rest]|o]|] eqn:Hp;
    simpl; try reflexivity.
  destruct (first_item_invalid_cases first) as [[_ Hw]|[[-> | ->] _]];
    try reflexivity.
  exfalso. apply (Hno (first :: rest)). exists text, first, rest. auto.
Qed.

Lemma getFoodRecommendation_Return response items :
  call response = Return items -> response_accepted JSON_parse response items.
Proof.
  intros H. unfold getFoodRecommendation, parse_or_throw in H.
  destruct response as [|text]; simpl in H; [discriminate|].
  destruct (JSON_parse (ToString text)) as [[| |b|q|inf|s|[|first rest]|o]|] eqn:Hp;
    simpl in H; try discriminate.
  destruct (first_item_invalid_cases first) as [[E Hw]|[[E | E] _]];
    rewrite E in H; simpl in H; try discriminate.
  injection H as <-. exists text, first, rest. auto.
Qed.

Lemma getFoodRecommendation_Throw response e :
  call response = Throw e ->
  e = recommendation_failure /\
  forall items, ~ response_accepted JSON_parse response items.
Proof.
  intros H. split.
  - unfold getFoodRecommendation in H.
    match type of H with try_catch ?b _ = _ => destruct b end;
      simpl in H; [discriminate | now injection H as <-].
  - intros items Ha. apply getFoodRecommendation_accepts in Ha. congruence.
Qed.

End Call.
End ServiceFacts.

(** C7. The validation of [getFoodRecommendation] looks at the first array
    element only: a response that parses to an array whose first element has
    a truthy [foodName], a truthy [reason] and a defined [familiarity] is
    returned whole and unchanged, whatever the other elements are; every
    other response (a rejected call, a text that does not parse, a value
    that is not a non-empty array, a first element that fails the check)
    raises the same generic error. *)
Theorem C7_first_item_only_validation
    (JSON_parse : jsstring -> option value)
    (weather : option WeatherInfo) (mealTime : MealTime.t)
    (foodPreference : FoodPreference.t) (familiarityRatings : gmap jsstring value)
    (response : GenerateContentResult) :
  (forall text firstItem rest,
      response = Resolved text ->
      JSON_parse (ToString text) = Some (VArr (firstItem :: rest)) ->
      first_item_well_formed firstItem ->
      getFoodRecommendation JSON_parse weather mealTime foodPreference
        familiarityRatings response = Return (firstItem :: rest)) /\
  ((forall text firstItem rest,
       response = Resolved text ->
       JSON_parse (ToString text) = Some (VArr (firstItem :: rest)) ->
       ~ first_item_well_formed firstItem) ->
   getFoodRecommendation JSON_parse weather mealTime foodPreference
     familiarityRatings response = Throw recommendation_failure).
Proof.
  split.
  - intros text first rest Hr Hp Hw.
    apply getFoodRecommendation_accepts. exists text, first, rest. auto.
  - intros Hno. apply getFoodRecommendation_rejects.
    intros items (text & first & rest & Hr & Hp & -> & Hw).
    exact (Hno text first rest Hr Hp Hw).
Qed.

(** C7 at [Sample.two_items], whose second element is [null], and at the
    empty array. *)
Lemma C7_witness :
  getFoodRecommendation JSON.parse None MealTime.LUNCH FoodPreference.SOUP ∅
    (Resolved (Some Sample.two_items))
  = Return [Sample.item "김치찌개" "비 오는 날엔 국물" 5; VNull] /\
  getFoodRecommendation JSON.parse None MealTime.LUNCH FoodPreference.SOUP ∅
    (Resolved (Some (js "[]")))
  = Throw recommendation_failure.
Proof.
  split.
  - apply (proj1 (C7_first_item_only_validation JSON.parse None MealTime.LUNCH
                    FoodPreference.SOUP ∅ (Resolved (Some Sample.two_items)))
             (Some Sample.two_items)).
    + reflexivity.
    + vm_compute. reflexivity.
    + exists (VStr (js "김치찌개")), (VStr (js "비 오는 날엔 국물")), (VNum (inject_Z 5)).
      repeat split; try reflexivity. discriminate.
  - apply (proj2 (C7_first_item_only_validation JSON.parse None MealTime.LUNCH
                    FoodPreference.SOUP ∅ (Resolved (Some (js "[]"))))).
    intros text first rest [= <-] Hp. vm_compute in Hp. discriminate.
Defined.

(** C2 (as stated) fails: a response holding a single recommendation is
    returned, and the list has one element, not five. *)
Lemma C2_counterexample :
  exists items,
    getFoodRecommendation JSON.parse None MealTime.LUNCH FoodPreference.SOUP ∅
      (Resolved (Some Sample.one_item)) = Return items /\
    length items = 1%nat.
Proof.
  exists [Sample.item "김치찌개" "비 오는 날엔 국물" 5]. split; vm_compute; reflexivity.
Qed.

(** C2 (amended). A list that [getFoodRecommendation] returns is the array
    the response text parsed to, unchanged; it is not empty and its first
    element has a truthy [foodName], a truthy [reason] and a defined
    [familiarity].  Neither its length nor its other elements are checked. *)
Theorem C2_returns_parsed_array_checked_at_head
    (JSON_parse : jsstring -> option value)
    (weather : option WeatherInfo) (mealTime : MealTime.t)
    (foodPreference : FoodPreference.t) (familiarityRatings : gmap jsstring value)
    (response : GenerateContentResult) (items : list Recommendation) :
  getFoodRecommendation JSON_parse weather mealTime foodPreference
    familiarityRatings response = Return items ->
  exists text firstItem rest,
    response = Resolved text /\
    JSON_parse (ToString text) = Some (VArr items) /\
    items = firstItem :: rest /\
    (1 <= length items)%nat /\
    first_item_well_formed firstItem.
Proof.
  intros H. apply getFoodRecommendation_Return in H.
  destruct H as (text & first & rest & Hr & Hp & -> & Hw).
  exists text, first, rest. repeat split; auto. simpl. lia.
Qed.

Lemma C2_witness :
  exists text firstItem rest,
    Resolved (Some Sample.two_items) = Resolved text /\
    JSON.parse (ToString text)
    = Some (VArr [Sample.item "김치찌개" "비 오는 날엔 국물" 5; VNull]) /\
    [Sample.item "김치찌개" "비 오는 날엔 국물" 5; VNull] = firstItem :: rest /\
    (1 <= length [Sample.item "김치찌개" "비 오는 날엔 국물" 5; VNull])%nat /\
    first_item_well_formed firstItem.
Proof.
  apply (C2_returns_parsed_array_checked_at_head JSON.parse None MealTime.LUNCH
           FoodPreference.SOUP ∅).
  vm_compute. reflexivity.
Defined.

(** C8 (as stated) fails: the response [Sample.off_scale] is returned; its
    first recommendation has familiarity 7 and its second has none. *)
Lemma C8_counterexample :
  exists first second,
    getFoodRecommendation JSON.parse None MealTime.LUNCH FoodPreference.SOUP ∅
      (Resolved (Some Sample.off_scale)) = Return [first; second] /\
    get first (js "familiarity") = Return (VNum (inject_Z 7)) /\
    familiarity_score (VNum (inject_Z 7)) = false /\
    get second (js "familiarity") = Return VUndefined.
Proof.
  exists (Sample.item "수정과" "달콤한 마무리" 7), (VObj []).
  repeat split; vm_compute; reflexivity.
Qed.

(** C8 (amended). The first recommendation of a list that
    [getFoodRecommendation] returns has a [familiarity] that is defined: it
    is the value the response carried, of any type and size. *)
Theorem C8_first_familiarity_defined
    (JSON_parse : jsstring -> option value)
    (weather : option WeatherInfo) (mealTime : MealTime.t)
    (foodPreference : FoodPreference.t) (familiarityRatings : gmap jsstring value)
    (response : GenerateContentResult) (items : list Recommendation) :
  getFoodRecommendation JSON_parse weather mealTime foodPreference
    familiarityRatings response = Return items ->
  exists firstItem rest familiarity,
    items = firstItem :: rest /\
    get firstItem (js "familiarity") = Return familiarity /\
    familiarity <> VUndefined.
Proof.
  intros H. apply getFoodRecommendation_Return in H.
  destruct H as (text & first & rest & _ & _ & -> & Hw).
  destruct Hw as (f & r & m & _ & _ & _ & _ & Hm & Nm).
  exists first, rest, m. auto.
Qed.

Lemma C8_witness :
  exists firstItem rest familiarity,
    [Sample.item "수정과" "달콤한 마무리" 7; VObj []] = firstItem :: rest /\
    get firstItem (js "familiarity") = Return familiarity /\
    familiarity <> VUndefined.
Proof.
  apply (C8_first_familiarity_defined JSON.parse None MealTime.LUNCH
           FoodPreference.SOUP ∅ (Resolved (Some Sample.off_scale))).
  vm_compute. reflexivity.
Defined.

(* ===================================================================== *)
(** ** getWeatherFromCoordinates                                           *)
(* ===================================================================== *)

(** [Math.round] gives the integer within a half of its argument. *)
Lemma Math_round_nearest (t : Q) :
  (inject_Z (Math_round t) - (1 # 2) <= t)%Q /\
  (t < inject_Z (Math_round t) + (1 # 2))%Q.
Proof.
  unfold Math_round.
  pose proof (Qfloor_le (t + (1 # 2))) as Hle.
  pose proof (Qlt_floor (t + (1 # 2))) as Hlt.
  rewrite inject_Z_plus in Hlt. split.
  - apply (Qplus_le_l _ _ (1 # 2)). ring_simplify.
    ring_simplify in Hle. exact Hle.
  - apply (Qplus_lt_l _ _ (1 # 2)). ring_simplify.
    ring_simplify in Hlt. exact Hlt.
Qed.

Lemma of_value_label (c : WeatherCondition.t) :
  WeatherCondition.of_value (VStr (WeatherCondition.label c)) = Some c.
Proof. destruct c; reflexivity. Qed.

Lemma truthy_label (c : WeatherCondition.t) :
  truthy (VStr (WeatherCondition.label c)) = true.
Proof. destruct c; reflexivity. Qed.

Lemma of_value_Some (v : value) (c : WeatherCondition.t) :
  WeatherCondition.of_value v = Some c -> v = VStr (WeatherCondition.label c).
Proof.
  destruct v as [| |b|q|inf|s|l|o]; try discriminate. unfold WeatherCondition.of_value.
  intros H. apply find_some in H as [_ H]. apply jsstring_eqb_eq in H. now subst.
Qed.

Section WeatherFacts.

Variable JSON_parse : jsstring -> option value.
Variables lat lon : Q.

Lemma getWeatherFromCoordinates_total response :
  exists w, getWeatherFromCoordinates JSON_parse lat lon response = Return w.
Proof.
  unfold getWeatherFromCoordinates.
  match goal with |- exists w, try_catch ?b _ = _ => destruct b as [w|e] end;
    simpl; eauto.
Qed.

Lemma getWeatherFromCoordinates_reads response c t :
  weather_response JSON_parse response c t ->
  getWeatherFromCoordinates JSON_parse lat lon response
  = Return {| condition := c; temperature := Math_round t |}.
Proof.
  intros (text & parsed & -> & Hp & Hc & Ht).
  unfold getWeatherFromCoordinates, parse_or_throw. simpl.
  unfold unfenced in Hp. rewrite Hp. cbv [bind]. rewrite Hc.
  rewrite truthy_label, of_value_label, Ht. reflexivity.
Qed.

Lemma getWeatherFromCoordinates_keeps_infinity response c negative :
  weather_overflow JSON_parse response c negative ->
  getWeatherFromCoordinates JSON_parse lat lon response
  = Return {| condition := c; temperature := Unbounded negative |}.
Proof.
  intros (text & parsed & -> & Hp & Hc & Ht).
  unfold getWeatherFromCoordinates, parse_or_throw. simpl.
  unfold unfenced in Hp. rewrite Hp. cbv [bind]. rewrite Hc.
  rewrite truthy_label, of_value_label, Ht. reflexivity.
Qed.

Lemma getWeatherFromCoordinates_falls_back response :
  (forall c t, ~ weather_response JSON_parse response c t) ->
  (forall c negative, ~ weather_overflow JSON_parse response c negative) ->
  getWeatherFromCoordinates JSON_parse lat lon response = Return fallback_weather.
Proof.
  intros Hno Hfinite. unfold getWeatherFromCoordinates, parse_or_throw.
  destruct response as [|[text|]]; simpl; try reflexivity.
  destruct (JSON_parse _) as [parsed|] eqn:Hp; simpl; [|reflexivity].
  destruct (get parsed (js "condition")) as [cond|e] eqn:Hc; simpl; [|reflexivity].
  destruct (truthy cond) eqn:Tc; [|reflexivity].
  destruct (WeatherCondition.of_value cond) as [c|] eqn:Oc; [|reflexivity].
  destruct (get parsed (js "temperature")) as [temp|e] eqn:Ht; simpl; [|reflexivity].
  apply of_value_Some in Oc. subst cond.
  destruct temp as [| |b|t|negative|s|l|o]; try reflexivity; exfalso.
  - apply (Hno c t). exists text, parsed. auto.
  - apply (Hfinite c negative). exists text, parsed. auto.
Qed.

Lemma weather_call_fails_falls_back response :
  weather_call_fails JSON_parse response ->
  getWeatherFromCoordinates JSON_parse lat lon response = Return fallback_weather.
Proof.
  intros Hfails. apply getWeatherFromCoordinates_falls_back.
  - intros c t (text & parsed & Hr & Hp & _).
    destruct Hfails as [-> | [-> | (text' & -> & Hnone)]]; try discriminate.
    injection Hr as <-. congruence.
  - intros c negative (text & parsed & Hr & Hp & _).
    destruct Hfails as [-> | [-> | (text' & -> & Hnone)]]; try discriminate.
    injection Hr as <-. congruence.
Qed.

End WeatherFacts.

(** C5 fails on the code at a temperature literal beyond the range of a
    double: [JSON.parse] reads it as [Infinity], which is a number, and
    [Math.round] leaves it as it is, so the weather returned carries an
    infinite temperature, neither an integer nor the fallback. *)
Theorem C5_overflowing_temperature_is_returned_infinite :
  JSON.parse (unfenced Sample.sunny_overflow)
  = Some (VObj [(js "condition", VStr (js "맑음")); (js "temperature", VInf false)]) /\
  getWeatherFromCoordinates JSON.parse 37 127 (Resolved (Some Sample.sunny_overflow))
  = Return {| condition := WeatherCondition.SUNNY; temperature := Unbounded false |}.
Proof. split; vm_compute; reflexivity. Qed.

(** What [getWeatherFromCoordinates] does on every input: it always returns
    a [WeatherInfo] and never raises.  When the response text, trimmed and
    with an optional markdown fence removed, parses to a value whose
    [condition] is one of the six labels and whose [temperature] is a finite
    number, it returns that condition and the temperature rounded to an
    integer by [Math.round]; when the temperature is an infinity it returns
    the condition with that infinity; in every other case (a rejected call,
    no text, a text that does not parse, another condition, a temperature
    that is not a number) it returns cloudy, 20. *)
Theorem weather_lookup_outcomes
    (JSON_parse : jsstring -> option value) (lat lon : Q)
    (response : GenerateContentResult) :
  (exists w, getWeatherFromCoordinates JSON_parse lat lon response = Return w) /\
  (forall c t,
      weather_response JSON_parse response c t ->
      getWeatherFromCoordinates JSON_parse lat lon response
      = Return {| condition := c; temperature := Integer (Math_round t) |}) /\
  (forall c negative,
      weather_overflow JSON_parse response c negative ->
      getWeatherFromCoordinates JSON_parse lat lon response
      = Return {| condition := c; temperature := Unbounded negative |}) /\
  ((forall c t, ~ weather_response JSON_parse response c t) ->
   (forall c negative, ~ weather_overflow JSON_parse response c negative) ->
   getWeatherFromCoordinates JSON_parse lat lon response
   = Return {| condition := WeatherCondition.CLOUDY; temperature := Integer 20 |}).
Proof.
  split; [apply getWeatherFromCoordinates_total|]. split; [|split].
  - apply getWeatherFromCoordinates_reads.
  - apply getWeatherFromCoordinates_keeps_infinity.
  - apply getWeatherFromCoordinates_falls_back.
Qed.

(** At a fenced answer, at a plain one with a fractional temperature, and
    at a rejected call. *)
Lemma weather_lookup_outcomes_witness :
  getWeatherFromCoordinates JSON.parse 37 127 (Resolved (Some Sample.fenced_snowy))
  = Return {| condition := WeatherCondition.SNOWY; temperature := -3 |} /\
  getWeatherFromCoordinates JSON.parse 37 127 (Resolved (Some Sample.sunny))
  = Return {| condition := WeatherCondition.SUNNY; temperature := 26 |} /\
  getWeatherFromCoordinates JSON.parse 37 127 Rejected
  = Return {| condition := WeatherCondition.CLOUDY; temperature := 20 |}.
Proof.
  split; [|split].
  - apply (proj1 (proj2 (weather_lookup_outcomes JSON.parse 37 127
                           (Resolved (Some Sample.fenced_snowy))))
             WeatherCondition.SNOWY (inject_Z (-3))).
    exists Sample.fenced_snowy, (VObj [(js "condition", VStr (js "눈"));
                                       (js "temperature", VNum (inject_Z (-3)))]).
    repeat split; vm_compute; reflexivity.
  - apply (proj1 (proj2 (weather_lookup_outcomes JSON.parse 37 127
                           (Resolved (Some Sample.sunny))))
             WeatherCondition.SUNNY (51 # 2)).
    exists Sample.sunny, (VObj [(js "condition", VStr (js "맑음"));
                                (js "temperature", VNum (51 # 2))]).
    repeat split; vm_compute; reflexivity.
  - apply (proj2 (proj2 (proj2 (weather_lookup_outcomes JSON.parse 37 127 Rejected)))).
    + intros c t (text & parsed & [=] & _).
    + intros c negative (text & parsed & [=] & _).
Defined.

(* ===================================================================== *)
(** ** handlePreferencesSubmit                                             *)
(* ===================================================================== *)

Lemma generateFoodImage_Return (foodName : value) (response : GenerateImagesResult)
    (url : jsstring) :
  generateFoodImage foodName response = Return url ->
  exists bytes, url = js "data:image/jpeg;base64," ++ bytes.
Proof.
  unfold generateFoodImage.
  destruct (ToString_raises foodName); [discriminate|].
  destruct response as [|[[|[[img|]] rest]|]]; simpl; try discriminate.
  intros [= <-]. eauto.
Qed.

Section SubmitFacts.

Variable JSON_parse : jsstring -> option value.
Variables (recommendationResponse : GenerateContentResult)
  (imageResponse : GenerateImagesResult).
Variables (st : AppState) (mt : MealTime.t) (fp : FoodPreference.t).
Hypothesis mealTime_chosen : mealTime st = Some mt.
Hypothesis foodPreference_chosen : foodPreference st = Some fp.

#[local] Abbreviation submitted :=
  (run (handlePreferencesSubmit JSON_parse recommendationResponse imageResponse) st).
#[local] Abbreviation recommended :=
  (getFoodRecommendation JSON_parse (weather st) mt fp (familiarityRatings st)
     recommendationResponse).

Lemma submit_recommendation_raises e :
  recommended = Throw e -> submitted = error_screen st (currentUserRating st).
Proof.
  intros H. unfold run, handlePreferencesSubmit.
  rewrite mealTime_chosen, foodPreference_chosen.
  cbv [and_then try_ lift setStep setError]. rewrite H. reflexivity.
Qed.

Lemma submit_image_raises primary others familiarity foodName e :
  recommended = Return (primary :: others) ->
  get primary (js "familiarity") = Return familiarity ->
  get primary (js "foodName") = Return foodName ->
  generateFoodImage foodName imageResponse = Throw e ->
  submitted = error_screen st familiarity.
Proof.
  intros H Hm Hn Hi. unfold run, handlePreferencesSubmit.
  rewrite mealTime_chosen, foodPreference_chosen.
  cbv [and_then try_ lift setStep setError setCurrentUserRating].
  rewrite H, Hm, Hn, Hi. reflexivity.
Qed.

Lemma submit_succeeds primary others familiarity foodName url :
  recommended = Return (primary :: others) ->
  get primary (js "familiarity") = Return familiarity ->
  get primary (js "foodName") = Return foodName ->
  generateFoodImage foodName imageResponse = Return url ->
  submitted
  = result_screen st familiarity
      (map_indexed (fun rec index =>
                      with_image (if (index =? 0)%nat then url else js "") rec)
         (primary :: others)).
Proof.
  intros H Hm Hn Hi. unfold run, handlePreferencesSubmit.
  rewrite mealTime_chosen, foodPreference_chosen.
  cbv [and_then try_ lift setStep setError setCurrentUserRating
         setRecommendations].
  rewrite H, Hm, Hn, Hi. reflexivity.
Qed.

End SubmitFacts.

(** C3. When both choices are made, [getFoodRecommendation] returns a list
    and [generateFoodImage] succeeds for the name of its first item, the app
    reaches the result step with one final recommendation per returned one,
    each the object spread of its recommendation plus an [imageUrl]: the
    generated, non-empty URL at index 0 and the empty string at every other
    index. *)
Theorem C3_one_image_on_top_entry
    (JSON_parse : jsstring -> option value)
    (recommendationResponse : GenerateContentResult)
    (imageResponse : GenerateImagesResult)
    (st : AppState) (mt : MealTime.t) (fp : FoodPreference.t)
    (primary : Recommendation) (others : list Recommendation)
    (foodName : value) (url : jsstring) :
  mealTime st = Some mt ->
  foodPreference st = Some fp ->
  getFoodRecommendation JSON_parse (weather st) mt fp (familiarityRatings st)
    recommendationResponse = Return (primary :: others) ->
  get primary (js "foodName") = Return foodName ->
  generateFoodImage foodName imageResponse = Return url ->
  let st' :=
    run (handlePreferencesSubmit JSON_parse recommendationResponse imageResponse) st in
  step st' = result /\
  error st' = None /\
  url <> js "" /\
  exists top rest,
    recommendations st' = Some (top :: rest) /\
    length rest = length others /\
    forall i final,
      (top :: rest) !! i = Some final ->
      own_get (js "imageUrl") final = VStr (if (i =? 0)%nat then url else js "") /\
      exists rec,
        (primary :: others) !! i = Some rec /\
        forall k, k <> js "imageUrl" -> own_get k final = own_get k (spread rec).
Proof.
  intros Hm Hf Hr Hn Hi st'.
  pose proof Hr as Ha. apply getFoodRecommendation_Return in Ha.
  destruct Ha as (text & first & rest & _ & _ & [= <- <-] & Hw).
  destruct Hw as (f & r & m & _ & _ & _ & _ & Hfam & _).
  set (final_of := fun (rec : Recommendation) (index : nat) =>
                     with_image (if (index =? 0)%nat then url else js "") rec).
  assert (Hst : st' = result_screen st m (map_indexed final_of (primary :: others)))
    by (apply (submit_succeeds _ _ _ _ mt fp Hm Hf primary others m foodName url);
        auto).
  rewrite Hst. split; [reflexivity|]. split; [reflexivity|]. split.
  - apply generateFoodImage_Return in Hi as [bytes ->]. discriminate.
  - pose proof (map_indexed_length final_of (primary :: others)) as Hlen.
    pose proof (map_indexed_lookup final_of (primary :: others)) as Hlook.
    destruct (map_indexed final_of (primary :: others)) as [|top rest'];
      [discriminate|].
    exists top, rest'. split; [reflexivity|].
    split; [simpl in Hlen; congruence|].
    intros i final Hl. rewrite Hlook in Hl.
    match type of Hl with
    | _ <$> ?o = _ => destruct o as [rec|] eqn:Hrec
    end; [|discriminate].
    injection Hl as <-. unfold final_of, with_image. split.
    + apply own_get_own_set_eq.
    + exists rec. split; [exact Hrec|]. intros k Hk.
      apply own_get_own_set_ne. congruence.
Qed.

(** C3 at [Sample.two_items]: the first final recommendation carries the
    image, the second (made from [null]) the empty string. *)
Lemma C3_witness :
  let st' :=
    run (handlePreferencesSubmit JSON.parse (Resolved (Some Sample.two_items))
           Sample.one_image) Sample.ready in
  step st' = result /\
  error st' = None /\
  js "data:image/jpeg;base64,QUJD" <> js "" /\
  exists top rest,
    recommendations st' = Some (top :: rest) /\
    length rest = length [VNull] /\
    forall i final,
      (top :: rest) !! i = Some final ->
      own_get (js "imageUrl") final
      = VStr (if (i =? 0)%nat then js "data:image/jpeg;base64,QUJD" else js "") /\
      exists rec,
        [Sample.item "김치찌개" "비 오는 날엔 국물" 5; VNull] !! i = Some rec /\
        forall k, k <> js "imageUrl" -> own_get k final = own_get k (spread rec).
Proof.
  apply (C3_one_image_on_top_entry JSON.parse (Resolved (Some Sample.two_items))
           Sample.one_image Sample.ready MealTime.LUNCH FoodPreference.SOUP
           (Sample.item "김치찌개" "비 오는 날엔 국물" 5) [VNull]
           (VStr (js "김치찌개")) (js "data:image/jpeg;base64,QUJD"));
    vm_compute; reflexivity.
Defined.

(** C10. When [getFoodRecommendation] succeeds and [generateFoodImage] then
    raises, the app ends on the error step with [recommendations] as it was
    before the submission, while [currentUserRating] already holds the
    familiarity of the first recommendation of the failed attempt. *)
Theorem C10_error_path_keeps_new_rating
    (JSON_parse : jsstring -> option value)
    (recommendationResponse : GenerateContentResult)
    (imageResponse : GenerateImagesResult)
    (st : AppState) (mt : MealTime.t) (fp : FoodPreference.t)
    (primary : Recommendation) (others : list Recommendation)
    (foodName : value) (e : exn) :
  mealTime st = Some mt ->
  foodPreference st = Some fp ->
  getFoodRecommendation JSON_parse (weather st) mt fp (familiarityRatings st)
    recommendationResponse = Return (primary :: others) ->
  get primary (js "foodName") = Return foodName ->
  generateFoodImage foodName imageResponse = Throw e ->
  let st' :=
    run (handlePreferencesSubmit JSON_parse recommendationResponse imageResponse) st in
  step st' = Step.error /\
  error st' = Some generic_error_message /\
  recommendations st' = recommendations st /\
  get primary (js "familiarity") = Return (currentUserRating st') /\
  currentUserRating st' <> VUndefined.
Proof.
  intros Hm Hf Hr Hn Hi st'.
  pose proof Hr as Ha. apply getFoodRecommendation_Return in Ha.
  destruct Ha as (text & first & rest & _ & _ & [= <- <-] & Hw).
  destruct Hw as (f & r & m & _ & _ & _ & _ & Hfam & Hdef).
  assert (Hst : st' = error_screen st m)
    by (apply (submit_image_raises _ _ _ _ mt fp Hm Hf primary others m foodName e);
        auto).
  rewrite Hst. simpl. auto.
Qed.

(** C10 from the preferences screen: no recommendations before or after,
    and the rating goes from [null] to 5. *)
Lemma C10_witness :
  let st' :=
    run (handlePreferencesSubmit JSON.parse (Resolved (Some Sample.one_item))
           ImagesRejected) Sample.ready in
  step st' = Step.error /\
  error st' = Some generic_error_message /\
  recommendations st' = recommendations Sample.ready /\
  get (Sample.item "김치찌개" "비 오는 날엔 국물" 5) (js "familiarity")
  = Return (currentUserRating st') /\
  currentUserRating st' <> VUndefined.
Proof.
  apply (C10_error_path_keeps_new_rating JSON.parse (Resolved (Some Sample.one_item))
           ImagesRejected Sample.ready MealTime.LUNCH FoodPreference.SOUP
           (Sample.item "김치찌개" "비 오는 날엔 국물" 5) [] (VStr (js "김치찌개"))
           (Error (js "Failed to generate food image from Gemini API.")));
    vm_compute; reflexivity.
Defined.




(* ===================================================================== *)
(** ** Ratings, manual weather and the weather effect                      *)
(* ===================================================================== *)

(** C6. In a result state (a first recommendation and a rating that is not
    [null]) [resetAndSaveRating] stores the current rating in the table
    under the first recommendation's [foodName] (as a property key: the
    string itself), leaves every other entry as it was, and then sets the
    step to welcome and weather, meal time, food preference,
    recommendations, current rating and error to [null]. *)
Theorem C6_rating_saved_then_session_cleared
    (ToString_key : value -> jsstring)
    (st : AppState) (first : FinalRecommendation) (rest : list FinalRecommendation) :
  recommendations st = Some (first :: rest) ->
  currentUserRating st <> VNull ->
  let key := ToPropertyKey ToString_key (own_get (js "foodName") first) in
  let st' := run (resetAndSaveRating ToString_key) st in
  familiarityRatings st' = <[key := currentUserRating st]> (familiarityRatings st) /\
  familiarityRatings st' !! key = Some (currentUserRating st) /\
  (forall k, k <> key -> familiarityRatings st' !! k = familiarityRatings st !! k) /\
  (forall name, own_get (js "foodName") first = VStr name -> key = name) /\
  step st' = welcome /\
  weather st' = None /\
  mealTime st' = None /\
  foodPreference st' = None /\
  recommendations st' = None /\
  currentUserRating st' = VNull /\
  error st' = None.
Proof.
  intros Hrec Hrating key st'.
  assert (Hst : st' =
    {| step := welcome; weather := None; mealTime := None; foodPreference := None;
       recommendations := None; error := None;
       familiarityRatings := <[key := currentUserRating st]> (familiarityRatings st);
       currentUserRating := VNull |}).
  { subst st' key. unfold run, resetAndSaveRating. rewrite Hrec.
    destruct (currentUserRating st) eqn:Hcur; try contradiction; reflexivity. }
  rewrite Hst. cbn [familiarityRatings step weather mealTime foodPreference
                      recommendations currentUserRating error].
  split; [reflexivity|]. split; [apply lookup_insert_eq|].
  split; [intros k Hk; now apply lookup_insert_ne|].
  split; [|repeat split].
  intros name Hname. subst key. now rewrite Hname.
Qed.

(** C6 at [Sample.rated]: the rating 2 goes under the food's name and the
    older entry stays. *)
Lemma C6_witness :
  let st' := run (resetAndSaveRating Sample.key_of) Sample.rated in
  familiarityRatings st'
  = <[js "김치찌개" := VNum (inject_Z 2)]> {[ js "비빔밥" := VNum (inject_Z 4) ]} /\
  familiarityRatings st' !! js "비빔밥" = Some (VNum (inject_Z 4)) /\
  step st' = welcome /\
  recommendations st' = None /\
  currentUserRating st' = VNull.
Proof.
  pose proof (C6_rating_saved_then_session_cleared Sample.key_of Sample.rated
                (with_image (js "data:image/jpeg;base64,QUJD")
                   (Sample.item "김치찌개" "비 오는 날엔 국물" 5)) []
                eq_refl ltac:(discriminate)) as H.
  cbv zeta in H.
  destruct H as (Htable & _ & Hother & _ & Hstep & _ & _ & _ & Hrecs & Hcur & _).
  split; [exact Htable|]. split; [|auto].
  rewrite Hother; [reflexivity | discriminate].
Defined.

(** C9. [handleManualWeatherSelect] sets the weather to the chosen condition
    with the temperature that goes with it (30 for hot, 5 for cold, -2 for
    snowy, 15 for rainy, 20 for sunny and for cloudy), sets the step to
    preferences and changes nothing else. *)
Theorem C9_manual_weather_fixed_temperature
    (st : AppState) (c : WeatherCondition.t) :
  run (handleManualWeatherSelect c) st
  = {| step := preferences;
       weather :=
         Some {| condition := c;
                 temperature :=
                   match c with
                   | WeatherCondition.HOT => 30
                   | WeatherCondition.COLD => 5
                   | WeatherCondition.SNOWY => -2
                   | WeatherCondition.RAINY => 15
                   | WeatherCondition.SUNNY => 20
                   | WeatherCondition.CLOUDY => 20
                   end |};
       mealTime := mealTime st; foodPreference := foodPreference st;
       recommendations := recommendations st; error := error st;
       familiarityRatings := familiarityRatings st;
       currentUserRating := currentUserRating st |}.
Proof. destruct c; reflexivity. Qed.

(** C1 (as stated) fails: with a position obtained, a rejected
    weather-inference call and a response that does not parse both lead to
    the preferences step with the weather set to cloudy, 20, not to manual
    selection. *)
Lemma C1_counterexample :
  run (gettingWeatherEffect JSON.parse (Position 37 127) Rejected)
    (run handleStart initialState)
  = {| step := preferences; weather := Some fallback_weather; mealTime := None;
       foodPreference := None; recommendations := None; error := None;
       familiarityRatings := ∅; currentUserRating := VNull |} /\
  JSON.parse (unfenced (js "Seoul is cloudy today.")) = None /\
  step (run (gettingWeatherEffect JSON.parse (Position 37 127)
               (Resolved (Some (js "Seoul is cloudy today."))))
          (run handleStart initialState))
  = preferences.
Proof. repeat split; vm_compute; reflexivity. Qed.

(** C1 (amended). On the getting-weather step, an unsupported geolocation
    API and a geolocation error lead to manual weather selection with the
    weather untouched; once a position is obtained, a failure of the
    weather-inference call (rejected request, missing text, text that does
    not parse) is absorbed by the fallback of [getWeatherFromCoordinates]
    and leads to the preferences step with the weather cloudy, 20.  In every
    case the error field is untouched and the step is not the error step. *)
Theorem C1_weather_failures_never_surface
    (JSON_parse : jsstring -> option value)
    (geo : GeolocationResult) (response : GenerateContentResult) (st : AppState) :
  step st = gettingWeather ->
  let st' := run (gettingWeatherEffect JSON_parse geo response) st in
  (geo = Unsupported \/ (exists message, geo = PositionError message) ->
   step st' = manualWeather /\ weather st' = weather st) /\
  (forall latitude longitude,
      geo = Position latitude longitude ->
      weather_call_fails JSON_parse response ->
      step st' = preferences /\ weather st' = Some fallback_weather) /\
  error st' = error st /\
  step st' <> Step.error.
Proof.
  intros Hstep st'. subst st'. unfold run, gettingWeatherEffect. rewrite Hstep.
  split; [|split].
  - intros [-> | [message ->]]; split; reflexivity.
  - intros latitude longitude -> Hfails.
    assert (Hw : getWeatherFromCoordinates JSON_parse latitude longitude response
                 = Return fallback_weather)
      by (apply weather_call_fails_falls_back; exact Hfails).
    cbv [try_ and_then lift]. rewrite Hw. split; reflexivity.
  - destruct geo as [|message|latitude longitude]; try (split; [reflexivity|discriminate]).
    cbv [try_ and_then lift].
    destruct (getWeatherFromCoordinates_total JSON_parse latitude longitude response)
      as [w ->].
    split; [reflexivity|discriminate].
Qed.

(** C1 (amended) at an unsupported geolocation API and at a rejected
    weather-inference call. *)
Lemma C1_witness :
  (step (run (gettingWeatherEffect JSON.parse Unsupported Rejected)
           (run handleStart initialState)) = manualWeather /\
   weather (run (gettingWeatherEffect JSON.parse Unsupported Rejected)
              (run handleStart initialState)) = None) /\
  (step (run (gettingWeatherEffect JSON.parse (Position 37 127) Rejected)
           (run handleStart initialState)) = preferences /\
   weather (run (gettingWeatherEffect JSON.parse (Position 37 127) Rejected)
              (run handleStart initialState)) = Some fallback_weather).
Proof.
  split.
  - apply (proj1 (C1_weather_failures_never_surface JSON.parse Unsupported Rejected
                    (run handleStart initialState) eq_refl)).
    left. reflexivity.
  - apply (proj1 (proj2 (C1_weather_failures_never_surface JSON.parse
                           (Position 37 127) Rejected
                           (run handleStart initialState) eq_refl)) 37%Q 127%Q eq_refl).
    left. reflexivity.
Defined.

(* ===================================================================== *)
(** ** A whole session                                                     *)
(* ===================================================================== *)

(** Start, geolocation refused, hot weather picked by hand, lunch and soup
    chosen, one recommendation with its image shown, the slider moved to 2,
    the rating saved: back on the welcome step with the rating in the table
    and nothing else kept. *)
Example session_with_manual_weather :
  let handlers :=
    handleStart >>
    gettingWeatherEffect JSON.parse (PositionError (js "User denied Geolocation"))
      Rejected >>
    handleManualWeatherSelect WeatherCondition.HOT >>
    setMealTime (Some MealTime.LUNCH) >>
    setFoodPreference (Some FoodPreference.SOUP) >>
    handlePreferencesSubmit JSON.parse (Resolved (Some Sample.one_item))
      Sample.one_image >>
    setCurrentUserRating (VNum (inject_Z 2)) >>
    resetAndSaveRating Sample.key_of in
  run handlers initialState
  = {| step := welcome; weather := None; mealTime := None; foodPreference := None;
       recommendations := None; error := None;
       familiarityRatings := {[ js "김치찌개" := VNum (inject_Z 2) ]};
       currentUserRating := VNull |}.
Proof. vm_compute. reflexivity. Qed.

(* ===================================================================== *)
(** ** generateFoodImage and the markdown fence                            *)
(* ===================================================================== *)

(** A parsed name whose ToString does not raise is a string, a number, a
    boolean, or an object or array that holds no [toString] key where the
    conversion looks. *)
Lemma ToString_raises_string (name : jsstring) : ToString_raises (VStr name) = false.
Proof. reflexivity. Qed.

(** [generateFoodImage] first puts the name into the prompt, outside the
    [try]: a name whose ToString raises (an object with an own [toString]
    key, an array that holds one) makes the call fail with that TypeError,
    whatever the response.  For any other name it looks at the first
    generated image only: when the response lists one and it holds an image
    object, the result is the data URL built from its bytes (the text
    [undefined] when the bytes are missing); in every other case (rejected
    call, no list, empty list, first entry without image) it raises the one
    generic image error. *)
Theorem generateFoodImage_outcomes
    (foodName : value) (response : GenerateImagesResult) :
  (ToString_raises foodName = true ->
   generateFoodImage foodName response = Throw TypeError) /\
  (ToString_raises foodName = false ->
   (forall first rest img,
       response = ImagesResolved (Some (first :: rest)) ->
       image first = Some img ->
       generateFoodImage foodName response
       = Return (js "data:image/jpeg;base64," ++ ToString (imageBytes img))) /\
   ((forall first rest img,
        response = ImagesResolved (Some (first :: rest)) ->
        image first <> Some img) ->
    generateFoodImage foodName response = Throw image_failure)).
Proof.
  unfold generateFoodImage. split; intros Hname; rewrite Hname; [reflexivity|].
  split.
  - intros first rest img -> Himg. rewrite Himg. reflexivity.
  - intros Hno.
    destruct response as [|[[|first rest]|]]; try reflexivity.
    destruct (image first) as [img|] eqn:Himg; [|reflexivity].
    destruct (Hno first rest img eq_refl Himg).
Qed.

Lemma generateFoodImage_outcomes_witness :
  generateFoodImage (VObj [(js "toString", VNum 1)]) Sample.one_image
  = Throw TypeError /\
  generateFoodImage (VStr (js "김치찌개"))
    (ImagesResolved
       (Some [{| image := Some {| imageBytes := None |} |}; {| image := None |}]))
  = Return (js "data:image/jpeg;base64,undefined") /\
  generateFoodImage (VStr (js "김치찌개"))
    (ImagesResolved (Some [{| image := None |}; {| image := Some {| imageBytes := Some (js "QUJD") |} |}]))
  = Throw image_failure.
Proof.
  split; [|split].
  - apply (proj1 (generateFoodImage_outcomes _ _)). reflexivity.
  - apply (proj1 (proj2 (generateFoodImage_outcomes (VStr (js "김치찌개")) _)
                    eq_refl)
             _ _ {| imageBytes := None |} eq_refl).
    reflexivity.
  - apply (proj2 (proj2 (generateFoodImage_outcomes (VStr (js "김치찌개")) _)
                    eq_refl)).
    intros first rest img [= <- <-]. discriminate.
Defined.

Lemma trimStart_white (ws s : jsstring) :
  Forall (fun c => is_trimmed c = true) ws -> trimStart (ws ++ s) = trimStart s.
Proof. induction 1 as [|c ws Hc _ IH]; simpl; [reflexivity|]. now rewrite Hc. Qed.

Lemma trimStart_stop (a : N) (s : jsstring) :
  is_trimmed a = false -> trimStart (a :: s) = a :: s.
Proof. intros H. simpl. now rewrite H. Qed.

Lemma trim_between (ws1 ws2 middle : jsstring) (a z : N) :
  Forall (fun c => is_trimmed c = true) ws1 ->
  Forall (fun c => is_trimmed c = true) ws2 ->
  is_trimmed a = false -> is_trimmed z = false ->
  trim (ws1 ++ (a :: middle ++ [z]) ++ ws2) = a :: middle ++ [z].
Proof.
  intros H1 H2 Ha Hz. unfold trim. rewrite trimStart_white by exact H1.
  assert (E1 : (a :: middle ++ [z]) ++ ws2 = a :: ((middle ++ [z]) ++ ws2))
    by reflexivity.
  rewrite E1, trimStart_stop by exact Ha.
  assert (E2 : rev (a :: (middle ++ [z]) ++ ws2)
               = rev ws2 ++ (z :: rev middle ++ [a])).
  { rewrite <- E1, rev_app_distr. f_equal.
    change (a :: middle ++ [z]) with ((a :: middle) ++ [z]).
    rewrite rev_app_distr. reflexivity. }
  rewrite E2, trimStart_white by (apply Forall_rev; exact H2).
  rewrite trimStart_stop by exact Hz.
  cbn [rev]. rewrite rev_app_distr, rev_involutive. reflexivity.
Qed.

(** A weather answer wrapped in a markdown fence, with any white space
    around it, is read as its body: the trim and the two replacements leave
    exactly the text between the fences, so a body that parses to one of the
    six conditions and a number gives that weather. *)
Theorem fenced_weather_answer_is_read_as_its_body
    (JSON_parse : jsstring -> option value) (lat lon : Q)
    (ws1 ws2 body : jsstring) (parsed : value) (c : WeatherCondition.t) (t : Q) :
  Forall (fun u => is_trimmed u = true) ws1 ->
  Forall (fun u => is_trimmed u = true) ws2 ->
  JSON_parse body = Some parsed ->
  get parsed (js "condition") = Return (VStr (WeatherCondition.label c)) ->
  get parsed (js "temperature") = Return (VNum t) ->
  unfenced (ws1 ++ fence_open ++ body ++ fence_close ++ ws2) = body /\
  getWeatherFromCoordinates JSON_parse lat lon
    (Resolved (Some (ws1 ++ fence_open ++ body ++ fence_close ++ ws2)))
  = Return {| condition := c; temperature := Math_round t |}.
Proof.
  intros H1 H2 Hp Hc Ht.
  assert (Hu : unfenced (ws1 ++ fence_open ++ body ++ fence_close ++ ws2) = body).
  { unfold unfenced.
    set (inner := [96; 96; 106; 115; 111; 110; 10]%N ++ body ++ [10; 96; 96]%N).
    assert (Hback : 96%N :: inner ++ [96%N] = fence_open ++ body ++ fence_close).
    { subst inner.
      change fence_open with [96; 96; 96; 106; 115; 111; 110; 10]%N.
      change fence_close with [10; 96; 96; 96]%N.
      cbn [app]. rewrite <- !app_assoc. reflexivity. }
    assert (Hshape : fence_open ++ body ++ fence_close ++ ws2
                     = (96%N :: inner ++ [96%N]) ++ ws2).
    { rewrite Hback, <- !app_assoc. reflexivity. }
    rewrite Hshape, trim_between by (auto; reflexivity).
    rewrite Hback, replace_at_start_app, replace_at_end_app. reflexivity. }
  split; [exact Hu|].
  apply getWeatherFromCoordinates_reads.
  eexists _, parsed. repeat split; eauto. now rewrite Hu.
Qed.

Lemma fenced_weather_answer_witness :
  unfenced ([32; 10]%N ++ fence_open ++ Sample.sunny ++ fence_close ++ [9; 32]%N)
  = Sample.sunny /\
  getWeatherFromCoordinates JSON.parse 37 127
    (Resolved (Some ([32; 10]%N ++ fence_open ++ Sample.sunny ++ fence_close
                     ++ [9; 32]%N)))
  = Return {| condition := WeatherCondition.SUNNY; temperature := Math_round (255 # 10) |}.
Proof.
  apply (fenced_weather_answer_is_read_as_its_body JSON.parse 37 127
           [32; 10]%N [9; 32]%N Sample.sunny
           (VObj [(js "condition", VStr (js "맑음"));
                  (js "temperature", VNum (51 # 2))])
           WeatherCondition.SUNNY (51 # 2)).
  - repeat constructor.
  - repeat constructor.
  - vm_compute. reflexivity.
  - reflexivity.
  - reflexivity.
Defined.

(* ===================================================================== *)
(** ** The handlers, for every input                                       *)
(* ===================================================================== *)

Lemma key_imageUrl_foodName : js "imageUrl" <> js "foodName".
Proof. intros H. vm_compute in H. discriminate. Qed.

(** The two ways a submission ends once both choices are made. *)
Lemma submit_outcome
    (JSON_parse : jsstring -> option value)
    (recommendationResponse : GenerateContentResult)
    (imageResponse : GenerateImagesResult)
    (st : AppState) (mt : MealTime.t) (fp : FoodPreference.t) :
  mealTime st = Some mt ->
  foodPreference st = Some fp ->
  let st' :=
    run (handlePreferencesSubmit JSON_parse recommendationResponse imageResponse) st in
  (exists rating, st' = error_screen st rating) \/
  (exists primary others familiarity foodName url,
      getFoodRecommendation JSON_parse (weather st) mt fp (familiarityRatings st)
        recommendationResponse = Return (primary :: others) /\
      get primary (js "familiarity") = Return familiarity /\
      familiarity <> VUndefined /\
      get primary (js "foodName") = Return foodName /\
      truthy foodName = true /\
      generateFoodImage foodName imageResponse = Return url /\
      st' = result_screen st familiarity
              (map_indexed
                 (fun rec index =>
                    with_image (if (index =? 0)%nat then url else js "") rec)
                 (primary :: others))).
Proof.
  intros Hm Hf st'. subst st'.
  destruct (getFoodRecommendation JSON_parse (weather st) mt fp
              (familiarityRatings st) recommendationResponse) as [items|e] eqn:Hr.
  - pose proof Hr as Ha. apply getFoodRecommendation_Return in Ha.
    destruct Ha as (text & first & rest & _ & _ & -> & Hw).
    destruct Hw as (f & r & m & Hname & Tname & _ & _ & Hfam & Hdef).
    destruct (generateFoodImage f imageResponse) as [url|e] eqn:Hi.
    + right. exists first, rest, m, f, url. repeat split; auto.
      apply (submit_succeeds _ _ _ _ mt fp Hm Hf first rest m f url); auto.
    + left. exists m.
      apply (submit_image_raises _ _ _ _ mt fp Hm Hf first rest m f e); auto.
  - left. exists (currentUserRating st).
    apply (submit_recommendation_raises _ _ _ _ mt fp Hm Hf e Hr).
Qed.

Lemma submit_without_choice
    (JSON_parse : jsstring -> option value)
    (recommendationResponse : GenerateContentResult)
    (imageResponse : GenerateImagesResult) (st : AppState) :
  mealTime st = None \/ foodPreference st = None ->
  handlePreferencesSubmit JSON_parse recommendationResponse imageResponse st
  = (Return tt, st).
Proof.
  intros H. unfold handlePreferencesSubmit.
  destruct (mealTime st), (foodPreference st), H; try discriminate; reflexivity.
Qed.

(** Once the browser hands over a position, the effect always ends on the
    preferences step with a weather set, the one [getWeatherFromCoordinates]
    returned: whatever the weather service answers, manual selection is not
    reached along this path. *)
Theorem position_always_leads_to_preferences
    (JSON_parse : jsstring -> option value) (latitude longitude : Q)
    (response : GenerateContentResult) (st : AppState) :
  step st = gettingWeather ->
  let st' := run (gettingWeatherEffect JSON_parse (Position latitude longitude) response)
               st in
  step st' = preferences /\
  exists w,
    getWeatherFromCoordinates JSON_parse latitude longitude response = Return w /\
    weather st' = Some w.
Proof.
  intros Hs st'. subst st'. unfold run, gettingWeatherEffect. rewrite Hs.
  cbv [try_ and_then lift].
  destruct (getWeatherFromCoordinates_total JSON_parse latitude longitude response)
    as [w Hw].
  rewrite Hw. split; [reflexivity|]. exists w. split; reflexivity.
Qed.

Lemma position_always_leads_to_preferences_witness :
  step (run (gettingWeatherEffect JSON.parse (Position 37 127)
               (Resolved (Some (js "Seoul is cloudy today."))))
          (run handleStart initialState)) = preferences /\
  exists w,
    getWeatherFromCoordinates JSON.parse 37 127
      (Resolved (Some (js "Seoul is cloudy today."))) = Return w /\
    weather (run (gettingWeatherEffect JSON.parse (Position 37 127)
                    (Resolved (Some (js "Seoul is cloudy today."))))
               (run handleStart initialState)) = Some w.
Proof.
  apply (position_always_leads_to_preferences JSON.parse 37 127
           (Resolved (Some (js "Seoul is cloudy today.")))
           (run handleStart initialState)).
  reflexivity.
Defined.

(** On the preferences screen the submit button is disabled exactly when a
    choice is missing, and exactly then [handlePreferencesSubmit] would
    leave the state as it is: the request is sent only with both choices. *)
Theorem submit_button_matches_guard
    (JSON_parse : jsstring -> option value)
    (recommendationResponse : GenerateContentResult)
    (imageResponse : GenerateImagesResult) (st : AppState) :
  step st = preferences ->
  exists shownWeather mealTimeButtons foodPrefButtons submitDisabled,
    renderContent st
    = PreferencesView shownWeather mealTimeButtons foodPrefButtons submitDisabled /\
    (submitDisabled = true <-> mealTime st = None \/ foodPreference st = None) /\
    (submitDisabled = true <->
     run (handlePreferencesSubmit JSON_parse recommendationResponse imageResponse) st
     = st).
Proof.
  intros Hs. unfold renderContent. rewrite Hs. do 4 eexists.
  split; [reflexivity|].
  destruct (mealTime st) as [mt|] eqn:Hm; [destruct (foodPreference st) as [fp|] eqn:Hf|].
  - split; [split; [discriminate | intros [H|H]; discriminate]|].
    split; [discriminate|]. intros Hsame. exfalso.
    destruct (submit_outcome JSON_parse recommendationResponse imageResponse
                st mt fp Hm Hf)
      as [[rating Hst]|(p & o & m & f & url & _ & _ & _ & _ & _ & _ & Hst)];
      rewrite Hsame in Hst; apply (f_equal step) in Hst; rewrite Hs in Hst;
      discriminate.
  - split; [split; auto|]. split; [|reflexivity]. intros _.
    unfold run. rewrite submit_without_choice; auto.
  - split; [split; auto|]. split; [|reflexivity]. intros _.
    unfold run. rewrite submit_without_choice; auto.
Qed.

Lemma submit_button_matches_guard_witness :
  exists shownWeather mealTimeButtons foodPrefButtons submitDisabled,
    renderContent (run (setMealTime (Some MealTime.LUNCH))
                     (run (handleManualWeatherSelect WeatherCondition.HOT)
                        initialState))
    = PreferencesView shownWeather mealTimeButtons foodPrefButtons submitDisabled /\
    (submitDisabled = true <->
     mealTime (run (setMealTime (Some MealTime.LUNCH))
                 (run (handleManualWeatherSelect WeatherCondition.HOT) initialState))
     = None \/
     foodPreference (run (setMealTime (Some MealTime.LUNCH))
                       (run (handleManualWeatherSelect WeatherCondition.HOT)
                          initialState)) = None) /\
    (submitDisabled = true <->
     run (handlePreferencesSubmit JSON.parse (Resolved (Some Sample.one_item))
            Sample.one_image)
       (run (setMealTime (Some MealTime.LUNCH))
          (run (handleManualWeatherSelect WeatherCondition.HOT) initialState))
     = run (setMealTime (Some MealTime.LUNCH))
         (run (handleManualWeatherSelect WeatherCondition.HOT) initialState)).
Proof.
  apply (submit_button_matches_guard JSON.parse (Resolved (Some Sample.one_item))
           Sample.one_image).
  reflexivity.
Defined.

Lemma submit_keeps_choices_and_ratings_aux
    (JSON_parse : jsstring -> option value)
    (recommendationResponse : GenerateContentResult)
    (imageResponse : GenerateImagesResult) (st : AppState) :
  familiarityRatings
    (run (handlePreferencesSubmit JSON_parse recommendationResponse imageResponse) st)
  = familiarityRatings st.
Proof.
  destruct (mealTime st) as [mt|] eqn:Hm; [destruct (foodPreference st) as [fp|] eqn:Hf|].
  - destruct (submit_outcome JSON_parse recommendationResponse imageResponse
                st mt fp Hm Hf)
      as [[rating ->]|(p & o & m & f & url & _ & _ & _ & _ & _ & _ & ->)];
      reflexivity.
  - unfold run. rewrite submit_without_choice; auto.
  - unfold run. rewrite submit_without_choice; auto.
Qed.

(** Whatever the state and the answers, [handlePreferencesSubmit] leaves the
    weather, both choices and the ratings table as they were. *)
Theorem submit_keeps_choices_and_ratings
    (JSON_parse : jsstring -> option value)
    (recommendationResponse : GenerateContentResult)
    (imageResponse : GenerateImagesResult) (st : AppState) :
  let st' :=
    run (handlePreferencesSubmit JSON_parse recommendationResponse imageResponse) st in
  weather st' = weather st /\
  mealTime st' = mealTime st /\
  foodPreference st' = foodPreference st /\
  familiarityRatings st' = familiarityRatings st.
Proof.
  intros st'. subst st'.
  destruct (mealTime st) as [mt|] eqn:Hm; [destruct (foodPreference st) as [fp|] eqn:Hf|].
  - destruct (submit_outcome JSON_parse recommendationResponse imageResponse
                st mt fp Hm Hf)
      as [[rating ->]|(p & o & m & f & url & _ & _ & _ & _ & _ & _ & ->)];
      cbn [error_screen result_screen weather mealTime foodPreference
             familiarityRatings]; auto.
  - unfold run. rewrite submit_without_choice; auto.
  - unfold run. rewrite submit_without_choice; auto.
Qed.

(** With both choices made, a submission ends either on the result step,
    with no error and a non-empty list of final recommendations, or on the
    error step, with the generic message and the recommendations it started
    with; it never stays on the loading step. *)
Theorem submit_ends_on_result_or_error
    (JSON_parse : jsstring -> option value)
    (recommendationResponse : GenerateContentResult)
    (imageResponse : GenerateImagesResult)
    (st : AppState) (mt : MealTime.t) (fp : FoodPreference.t) :
  mealTime st = Some mt ->
  foodPreference st = Some fp ->
  let st' :=
    run (handlePreferencesSubmit JSON_parse recommendationResponse imageResponse) st in
  (step st' = result /\ error st' = None /\
   exists top rest, recommendations st' = Some (top :: rest)) \/
  (step st' = Step.error /\ error st' = Some generic_error_message /\
   recommendations st' = recommendations st).
Proof.
  intros Hm Hf st'. subst st'.
  destruct (submit_outcome JSON_parse recommendationResponse imageResponse
              st mt fp Hm Hf)
    as [[rating ->]|(p & o & m & f & url & _ & _ & _ & _ & _ & _ & ->)].
  - right. repeat split.
  - left. split; [reflexivity|]. split; [reflexivity|].
    eexists _, _. reflexivity.
Qed.

Lemma submit_ends_on_result_or_error_witness :
  (step Scenario.shown = result /\ error Scenario.shown = None /\
   exists top rest, recommendations Scenario.shown = Some (top :: rest)) \/
  (step Scenario.shown = Step.error /\
   error Scenario.shown = Some generic_error_message /\
   recommendations Scenario.shown = recommendations Scenario.chosen).
Proof.
  apply (submit_ends_on_result_or_error JSON.parse
           (Resolved (Some Sample.two_items)) Sample.one_image Scenario.chosen
           MealTime.LUNCH FoodPreference.SOUP); reflexivity.
Defined.

(* ===================================================================== *)
(** ** The ratings table                                                   *)
(* ===================================================================== *)

Lemma effect_keeps_ratings
    (JSON_parse : jsstring -> option value) (geo : GeolocationResult)
    (response : GenerateContentResult) (st : AppState) :
  familiarityRatings (run (gettingWeatherEffect JSON_parse geo response) st)
  = familiarityRatings st.
Proof.
  unfold run, gettingWeatherEffect.
  destruct (step st); try reflexivity.
  destruct geo as [|message|latitude longitude]; try reflexivity.
  cbv [try_ and_then lift].
  destruct (getWeatherFromCoordinates_total JSON_parse latitude longitude response)
    as [w ->].
  reflexivity.
Qed.

Lemma save_changes_one_entry (ToString_key : value -> jsstring) (st : AppState) :
  familiarityRatings (run (resetAndSaveRating ToString_key) st) = familiarityRatings st \/
  exists key rating,
    familiarityRatings (run (resetAndSaveRating ToString_key) st)
    = <[key := rating]> (familiarityRatings st).
Proof.
  unfold run, resetAndSaveRating.
  destruct (recommendations st) as [[|first rest]|]; try (left; reflexivity).
  destruct (currentUserRating st); try (left; reflexivity);
    right; eexists _, _; reflexivity.
Qed.

Lemma handle_ratings
    (JSON_parse : jsstring -> option value) (ToString_key : value -> jsstring)
    (e : Event) (st : AppState) :
  e <> ClickSaveAndRetry ->
  familiarityRatings (run (handle JSON_parse ToString_key e) st)
  = familiarityRatings st.
Proof.
  intros He. destruct e as [|geo r|c|mt|fp|reco img|q| |]; try reflexivity.
  - apply effect_keeps_ratings.
  - apply submit_keeps_choices_and_ratings_aux.
  - congruence.
Qed.

(** No sequence of events removes a rating: every food name in the table
    before is still in it after, and only the save-and-retry handler changes
    the table at all. *)
Theorem ratings_are_never_dropped
    (JSON_parse : jsstring -> option value) (ToString_key : value -> jsstring)
    (events : list Event) (st : AppState) :
  let after :=
    fold_left (fun st e => run (handle JSON_parse ToString_key e) st) events st in
  dom (familiarityRatings st) ⊆ dom (familiarityRatings after) /\
  (Forall (fun e => e <> ClickSaveAndRetry) events ->
   familiarityRatings after = familiarityRatings st).
Proof.
  revert st. induction events as [|e events IH]; intros st after; subst after.
  - split; [set_solver | reflexivity].
  - cbn [fold_left].
    pose proof (IH (run (handle JSON_parse ToString_key e) st)) as [Hdom Hsame].
    split.
    + etransitivity; [|exact Hdom].
      destruct e as [|geo r|c|mt|fp|reco img|q| |];
        try (rewrite handle_ratings by discriminate; reflexivity).
      cbn [handle].
      destruct (save_changes_one_entry ToString_key st) as [->|(k & v & ->)];
        [reflexivity|].
      rewrite dom_insert_L. apply union_subseteq_r.
    + intros Hall. inversion Hall as [|e' l' He Hrest]; subst.
      rewrite Hsame by exact Hrest. now apply handle_ratings.
Qed.

(** A recommendation shown and saved without touching the slider records
    the model's own estimate: after a successful submission whose first item
    is named by a string, saving stores that item's familiarity under that
    name and returns to the welcome step; when that familiarity is [null]
    nothing is stored. *)
Theorem shown_then_saved_records_estimate
    (JSON_parse : jsstring -> option value) (ToString_key : value -> jsstring)
    (recommendationResponse : GenerateContentResult)
    (imageResponse : GenerateImagesResult)
    (st : AppState) (mt : MealTime.t) (fp : FoodPreference.t)
    (primary : Recommendation) (others : list Recommendation)
    (name url : jsstring) (familiarity : value) :
  mealTime st = Some mt ->
  foodPreference st = Some fp ->
  getFoodRecommendation JSON_parse (weather st) mt fp (familiarityRatings st)
    recommendationResponse = Return (primary :: others) ->
  get primary (js "foodName") = Return (VStr name) ->
  get primary (js "familiarity") = Return familiarity ->
  generateFoodImage (VStr name) imageResponse = Return url ->
  let saved :=
    run (resetAndSaveRating ToString_key)
      (run (handlePreferencesSubmit JSON_parse recommendationResponse imageResponse)
         st) in
  step saved = welcome /\
  (familiarity <> VNull ->
   familiarityRatings saved = <[name := familiarity]> (familiarityRatings st)) /\
  (familiarity = VNull -> familiarityRatings saved = familiarityRatings st).
Proof.
  intros Hm Hf Hr Hname Hfam Hi saved. subst saved.
  rewrite (submit_succeeds JSON_parse recommendationResponse imageResponse st mt fp
             Hm Hf primary others familiarity (VStr name) url Hr Hfam Hname Hi).
  assert (Hkey : own_get (js "foodName") (with_image url primary) = VStr name).
  { unfold with_image. rewrite own_get_own_set_ne by apply key_imageUrl_foodName.
    destruct primary as [| |b|q|inf|s|l|o]; try discriminate.
    simpl in Hname. now injection Hname. }
  unfold run, resetAndSaveRating, result_screen, map_indexed.
  cbn [indexed List.map recommendations currentUserRating fst snd Nat.eqb].
  split; [destruct familiarity; reflexivity|]. split.
  - intros Hnn. destruct familiarity; try contradiction;
      cbv [and_then setFamiliarityRatings];
      cbn [familiarityRatings snd]; rewrite Hkey; reflexivity.
  - intros ->. reflexivity.
Qed.

Lemma shown_then_saved_records_estimate_witness :
  step (run (resetAndSaveRating Sample.key_of) Scenario.shown) = welcome /\
  (VNum (inject_Z 5) <> VNull ->
   familiarityRatings (run (resetAndSaveRating Sample.key_of) Scenario.shown)
   = <[js "김치찌개" := VNum (inject_Z 5)]> (familiarityRatings Scenario.chosen)) /\
  (VNum (inject_Z 5) = VNull ->
   familiarityRatings (run (resetAndSaveRating Sample.key_of) Scenario.shown)
   = familiarityRatings Scenario.chosen).
Proof.
  apply (shown_then_saved_records_estimate JSON.parse Sample.key_of
           (Resolved (Some Sample.two_items)) Sample.one_image Scenario.chosen
           MealTime.LUNCH FoodPreference.SOUP
           (Sample.item "김치찌개" "비 오는 날엔 국물" 5) [VNull]
           (js "김치찌개") (js "data:image/jpeg;base64,QUJD") (VNum (inject_Z 5)));
    vm_compute; reflexivity.
Defined.

(** [resetAndSaveRating] clears the session exactly as [resetFromError]
    does: the two resulting states agree on every field but the ratings
    table, and on that one too when there is no recommendation to rate or
    the current rating is [null]. *)
Theorem save_and_retry_resets_like_back_to_start
    (ToString_key : value -> jsstring) (st : AppState) :
  let saved := run (resetAndSaveRating ToString_key) st in
  let back := run resetFromError st in
  step saved = step back /\ weather saved = weather back /\
  mealTime saved = mealTime back /\ foodPreference saved = foodPreference back /\
  recommendations saved = recommendations back /\ error saved = error back /\
  currentUserRating saved = currentUserRating back /\
  (recommendations st = None \/ recommendations st = Some [] \/
   currentUserRating st = VNull -> saved = back).
Proof.
  intros saved back. subst saved back.
  unfold run, resetAndSaveRating, resetFromError.
  destruct (recommendations st) as [[|first rest]|] eqn:Hrec;
    [|destruct (currentUserRating st) eqn:Hcur|];
    cbv [and_then ret setStep setWeather setMealTime setFoodPreference
           setRecommendations setCurrentUserRating setError setFamiliarityRatings
           snd step weather mealTime foodPreference recommendations error
           currentUserRating familiarityRatings];
    repeat (split; [reflexivity|]);
    intros [H|[H|H]]; first [discriminate H | reflexivity].
Qed.

(** The final recommendations: the first carries the image, the others the
    empty string. *)
Lemma tail_images_empty (url : jsstring) (primary : Recommendation)
    (others : list Recommendation) :
  exists rest,
    map_indexed (fun rec index =>
                   with_image (if (index =? 0)%nat then url else js "") rec)
      (primary :: others)
    = with_image url primary :: rest /\
    Forall (fun final => own_get (js "imageUrl") final = VStr (js "")) rest.
Proof.
  set (final_of := fun (rec : Recommendation) (index : nat) =>
                     with_image (if (index =? 0)%nat then url else js "") rec).
  pose proof (map_indexed_lookup final_of (primary :: others)) as Hlook.
  destruct (map_indexed final_of (primary :: others)) as [|top rest] eqn:Hmap.
  - specialize (Hlook 0%nat). discriminate.
  - exists rest. split.
    + specialize (Hlook 0%nat). injection Hlook as ->. reflexivity.
    + apply Forall_lookup_2. intros i final Hi.
      assert (E : Some final
                  = (fun a => final_of a (S i)) <$> (primary :: others) !! S i)
        by (rewrite <- (Hlook (S i)); symmetry; exact Hi).
      match type of E with
      | _ = _ <$> ?o => destruct o as [rec|]
      end; [|discriminate].
      injection E as ->. unfold final_of, with_image.
      apply own_get_own_set_eq.
Qed.

(* ===================================================================== *)
(** ** The states between two events                                       *)
(* ===================================================================== *)

Section Invariant.

Variable JSON_parse : jsstring -> option value.
Variable ToString_key : value -> jsstring.

Lemma submit_keeps_invariant reco img (st : AppState) (mt : MealTime.t)
    (fp : FoodPreference.t) :
  step st = preferences -> session_invariant st ->
  mealTime st = Some mt -> foodPreference st = Some fp ->
  session_invariant (run (handlePreferencesSubmit JSON_parse reco img) st).
Proof.
  intros Hs Hinv Hm Hf. unfold session_invariant in Hinv. rewrite Hs in Hinv.
  destruct Hinv as (Hw & Hrec & Herr & Hcur).
  destruct (submit_outcome JSON_parse reco img st mt fp Hm Hf)
    as [[rating ->]|(p & o & m & f & url & _ & Hfam & Hdef & Hname & Tname & Hi & ->)].
  - unfold session_invariant, error_screen.
    cbn [step weather mealTime foodPreference recommendations error].
    rewrite Hm, Hf. repeat split; auto; discriminate.
  - destruct (tail_images_empty url p o) as (rest & -> & Hrest).
    unfold session_invariant, result_screen.
    cbn [step weather mealTime foodPreference recommendations error
           currentUserRating].
    rewrite Hm, Hf. repeat split; auto; try discriminate.
    exists (with_image url p), rest. split; [reflexivity|].
    split; [|split; [|exact Hrest]].
    + unfold with_image. rewrite own_get_own_set_ne by apply key_imageUrl_foodName.
      destruct p as [| |b|q|inf|s|l|obj]; try discriminate;
        simpl in Hname; injection Hname as <-; try discriminate Tname.
      exact Tname.
    + apply generateFoodImage_Return in Hi as [bytes ->].
      exists bytes. unfold with_image. apply own_get_own_set_eq.
Qed.

Lemma save_state (st : AppState) :
  exists table,
    run (resetAndSaveRating ToString_key) st
    = {| step := welcome; weather := None; mealTime := None;
         foodPreference := None; recommendations := None; error := None;
         familiarityRatings := table; currentUserRating := VNull |}.
Proof.
  unfold run, resetAndSaveRating.
  destruct (recommendations st) as [[|first rest]|] eqn:Hrec;
    [|destruct (currentUserRating st) eqn:Hcur|];
    cbv [and_then ret setStep setWeather setMealTime setFoodPreference
           setRecommendations setCurrentUserRating setError setFamiliarityRatings
           snd step weather mealTime foodPreference recommendations error
           currentUserRating familiarityRatings];
    eexists; reflexivity.
Qed.

Lemma effect_with_position_state (latitude longitude : Q)
    (r : GenerateContentResult) (st : AppState) :
  step st = gettingWeather ->
  exists w,
    run (gettingWeatherEffect JSON_parse (Position latitude longitude) r) st
    = {| step := preferences; weather := Some w; mealTime := mealTime st;
         foodPreference := foodPreference st;
         recommendations := recommendations st; error := error st;
         familiarityRatings := familiarityRatings st;
         currentUserRating := currentUserRating st |}.
Proof.
  intros Hs. unfold run, gettingWeatherEffect. rewrite Hs.
  cbv [try_ and_then lift].
  destruct (getWeatherFromCoordinates_total JSON_parse latitude longitude r)
    as [w ->].
  exists w. reflexivity.
Qed.

Lemma offered_only_where_rendered (st : AppState) (e : Event) :
  offered (renderContent st) e = true ->
  match e with
  | ClickStart => step st = welcome
  | WeatherSettled _ _ => step st = gettingWeather
  | ClickWeather _ => step st = manualWeather
  | ClickMealTime _ | ClickFoodPreference _ => step st = preferences
  | ClickSubmit _ _ =>
    step st = preferences /\
    exists mt fp, mealTime st = Some mt /\ foodPreference st = Some fp
  | SlideScore _ | ClickSaveAndRetry =>
    step st = result /\
    (exists primary others, recommendations st = Some (primary :: others)) /\
    currentUserRating st <> VNull
  | ClickBackToStart => step st = Step.error
  end.
Proof.
  destruct st as [s w m f rs er t cur].
  cbv [renderContent step recommendations currentUserRating mealTime
         foodPreference].
  destruct s; try (destruct rs as [[|primary others]|]; destruct cur);
    destruct e; cbn [offered]; try discriminate; try reflexivity;
    try (intros _; split; [reflexivity|]; split; [eauto|discriminate]).
  all: destruct m, f; try discriminate; intros _; split; eauto.
Qed.

Lemma event_keeps_invariant (st : AppState) (e : Event) :
  session_invariant st ->
  offered (renderContent st) e = true ->
  session_invariant (run (handle JSON_parse ToString_key e) st).
Proof.
  intros Hinv Hoff. apply offered_only_where_rendered in Hoff.
  destruct e as [|geo r|c|mt|fp|reco img|q| |]; cbn [handle].
  - destruct st as [s w m f rs er t cur]. cbn [step] in Hoff. subst s. exact Hinv.
  - destruct geo as [|message|latitude longitude].
    + destruct st as [s w m f rs er t cur]. cbn [step] in Hoff. subst s. exact Hinv.
    + destruct st as [s w m f rs er t cur]. cbn [step] in Hoff. subst s. exact Hinv.
    + destruct (effect_with_position_state latitude longitude r st Hoff) as [w ->].
      unfold session_invariant, cleared in *. rewrite Hoff in Hinv.
      cbn [step weather recommendations error currentUserRating].
      destruct Hinv as (_ & _ & _ & Hr & He & Hc). repeat split; auto; discriminate.
  - destruct st as [s w m f rs er t cur]. cbn [step] in Hoff. subst s.
    destruct Hinv as (_ & _ & _ & Hr & He & Hc).
    repeat split; auto; discriminate.
  - destruct st as [s w m f rs er t cur]. cbn [step] in Hoff. subst s. exact Hinv.
  - destruct st as [s w m f rs er t cur]. cbn [step] in Hoff. subst s. exact Hinv.
  - destruct Hoff as (Hs & mt & fp & Hm & Hf).
    now apply (submit_keeps_invariant reco img st mt fp).
  - destruct Hoff as (Hs & _ & _).
    destruct st as [s w m f rs er t cur]. cbn [step] in Hs. subst s.
    destruct Hinv as (Hw & Hm & Hf & He & _ & Hshape).
    repeat split; auto; discriminate.
  - destruct (save_state st) as [table ->]. repeat split.
  - destruct st as [s w m f rs er t cur]. cbn [step] in Hoff. subst s.
    repeat split.
Qed.

Lemma reachable_invariant (st : AppState) :
  reachable JSON_parse ToString_key st -> session_invariant st.
Proof.
  induction 1 as [|st e _ IH Hoff].
  - repeat split.
  - now apply event_keeps_invariant.
Qed.

End Invariant.

Lemma chosen_reachable : reachable JSON.parse Sample.key_of Scenario.chosen.
Proof.
  unfold Scenario.chosen, Scenario.play, Scenario.to_preferences. cbn [fold_left].
  repeat (apply reachable_event; [|vm_compute; reflexivity]).
  apply reachable_initial.
Qed.

Lemma shown_reachable : reachable JSON.parse Sample.key_of Scenario.shown.
Proof.
  unfold Scenario.shown, Scenario.play. cbn [fold_left].
  apply reachable_event; [apply chosen_reachable | vm_compute; reflexivity].
Qed.

Lemma failed_reachable : reachable JSON.parse Sample.key_of Scenario.failed.
Proof.
  unfold Scenario.failed, Scenario.play. cbn [fold_left].
  apply reachable_event; [apply chosen_reachable | vm_compute; reflexivity].
Qed.

(** Between two events the error message is set exactly on the error step,
    and it is then the generic message. *)
Theorem error_message_only_on_error_step
    (JSON_parse : jsstring -> option value) (ToString_key : value -> jsstring)
    (st : AppState) :
  reachable JSON_parse ToString_key st ->
  (step st = Step.error <-> error st <> None) /\
  (step st = Step.error -> error st = Some generic_error_message).
Proof.
  intros Hr. apply reachable_invariant in Hr. unfold session_invariant, cleared in Hr.
  destruct (step st); try contradiction;
    repeat match goal with H : _ /\ _ |- _ => destruct H end;
    (split; [split|]); try discriminate; try congruence.
Qed.

Lemma error_message_only_on_error_step_witness :
  (step Scenario.failed = Step.error <-> error Scenario.failed <> None) /\
  (step Scenario.failed = Step.error ->
   error Scenario.failed = Some generic_error_message).
Proof.
  apply (error_message_only_on_error_step JSON.parse Sample.key_of).
  apply failed_reachable.
Defined.

(** Every way to the preferences step sets the weather first, and nothing
    clears it before the session is reset: on the preferences, result and
    error steps the weather is never [null], so every recommendation request
    the submit button can send carries a weather, a meal time and a food
    preference. *)
Theorem weather_is_known_from_preferences_on
    (JSON_parse : jsstring -> option value) (ToString_key : value -> jsstring)
    (st : AppState) :
  reachable JSON_parse ToString_key st ->
  (step st = preferences \/ step st = result \/ step st = Step.error ->
   weather st <> None) /\
  (forall recommendationResponse imageResponse,
      offered (renderContent st) (ClickSubmit recommendationResponse imageResponse)
      = true ->
      exists w mt fp,
        weather st = Some w /\ mealTime st = Some mt /\ foodPreference st = Some fp).
Proof.
  intros Hr. apply reachable_invariant in Hr. unfold session_invariant in Hr. split.
  - intros [Hs|[Hs|Hs]]; rewrite Hs in Hr; tauto.
  - intros reco img Hoff. apply offered_only_where_rendered in Hoff.
    destruct Hoff as (Hs & mt & fp & Hm & Hf). rewrite Hs in Hr.
    destruct Hr as (Hw & _). destruct (weather st) as [w|]; [|contradiction].
    exists w, mt, fp. auto.
Qed.

Lemma weather_is_known_from_preferences_on_witness :
  (step Scenario.chosen = preferences \/ step Scenario.chosen = result \/
   step Scenario.chosen = Step.error ->
   weather Scenario.chosen <> None) /\
  (forall recommendationResponse imageResponse,
      offered (renderContent Scenario.chosen)
        (ClickSubmit recommendationResponse imageResponse) = true ->
      exists w mt fp,
        weather Scenario.chosen = Some w /\ mealTime Scenario.chosen = Some mt /\
        foodPreference Scenario.chosen = Some fp).
Proof.
  apply (weather_is_known_from_preferences_on JSON.parse Sample.key_of).
  apply chosen_reachable.
Defined.

(** Before the preferences step (welcome, getting weather, manual weather)
    no session field is set: a new round starts with nothing left of the
    previous one but the ratings table. *)
Theorem rounds_start_clean
    (JSON_parse : jsstring -> option value) (ToString_key : value -> jsstring)
    (st : AppState) :
  reachable JSON_parse ToString_key st ->
  step st = welcome \/ step st = gettingWeather \/ step st = manualWeather ->
  weather st = None /\ mealTime st = None /\ foodPreference st = None /\
  recommendations st = None /\ error st = None /\ currentUserRating st = VNull.
Proof.
  intros Hr Hs. apply reachable_invariant in Hr. unfold session_invariant in Hr.
  destruct Hs as [Hs|[Hs|Hs]]; rewrite Hs in Hr; exact Hr.
Qed.

Lemma rounds_start_clean_witness :
  weather (run (resetAndSaveRating Sample.key_of) Scenario.shown) = None /\
  mealTime (run (resetAndSaveRating Sample.key_of) Scenario.shown) = None /\
  foodPreference (run (resetAndSaveRating Sample.key_of) Scenario.shown) = None /\
  recommendations (run (resetAndSaveRating Sample.key_of) Scenario.shown) = None /\
  error (run (resetAndSaveRating Sample.key_of) Scenario.shown) = None /\
  currentUserRating (run (resetAndSaveRating Sample.key_of) Scenario.shown) = VNull.
Proof.
  apply (rounds_start_clean JSON.parse Sample.key_of).
  - apply (reachable_event JSON.parse Sample.key_of Scenario.shown ClickSaveAndRetry).
    + apply shown_reachable.
    + vm_compute. reflexivity.
  - left. vm_compute. reflexivity.
Defined.

(** Recommendations are held exactly on the result step, and there the list
    is never empty: its first entry has a truthy name and a data URL as
    image, every other entry has the empty string as image, and no error is
    set.  This stays so when the slider is moved. *)
Theorem result_step_holds_one_pictured_recommendation
    (JSON_parse : jsstring -> option value) (ToString_key : value -> jsstring)
    (st : AppState) :
  reachable JSON_parse ToString_key st ->
  (step st = result <-> recommendations st <> None) /\
  (step st = result ->
   error st = None /\
   exists top rest,
     recommendations st = Some (top :: rest) /\
     truthy (own_get (js "foodName") top) = true /\
     (exists bytes,
         own_get (js "imageUrl") top
         = VStr (js "data:image/jpeg;base64," ++ bytes)) /\
     Forall (fun final => own_get (js "imageUrl") final = VStr (js "")) rest).
Proof.
  intros Hr. apply reachable_invariant in Hr.
  unfold session_invariant, cleared, shown_recommendations in Hr.
  destruct (step st); try contradiction;
    repeat match goal with
           | H : _ /\ _ |- _ => destruct H
           | H : exists _, _ |- _ => destruct H
           end;
    (split; [split|]); try discriminate; try congruence.
  intros _. split; [assumption|]. eauto 10.
Qed.

Lemma result_step_holds_one_pictured_recommendation_witness :
  (step Scenario.shown = result <-> recommendations Scenario.shown <> None) /\
  (step Scenario.shown = result ->
   error Scenario.shown = None /\
   exists top rest,
     recommendations Scenario.shown = Some (top :: rest) /\
     truthy (own_get (js "foodName") top) = true /\
     (exists bytes,
         own_get (js "imageUrl") top
         = VStr (js "data:image/jpeg;base64," ++ bytes)) /\
     Forall (fun final => own_get (js "imageUrl") final = VStr (js "")) rest).
Proof.
  apply (result_step_holds_one_pictured_recommendation JSON.parse Sample.key_of).
  apply shown_reachable.
Defined.

(** A first item whose [familiarity] is [null] passes the validation (it is
    not [undefined]); when the image call succeeds too, the app goes to the
    result step with a [null] rating, for which [renderContent] returns
    [null]: the page is blank and offers no control at all. *)
Theorem null_familiarity_leaves_a_blank_page
    (JSON_parse : jsstring -> option value) (ToString_key : value -> jsstring)
    (recommendationResponse : GenerateContentResult)
    (imageResponse : GenerateImagesResult)
    (st : AppState) (mt : MealTime.t) (fp : FoodPreference.t)
    (primary : Recommendation) (others : list Recommendation)
    (foodName : value) (url : jsstring) :
  reachable JSON_parse ToString_key st ->
  step st = preferences ->
  mealTime st = Some mt ->
  foodPreference st = Some fp ->
  getFoodRecommendation JSON_parse (weather st) mt fp (familiarityRatings st)
    recommendationResponse = Return (primary :: others) ->
  get primary (js "familiarity") = Return VNull ->
  get primary (js "foodName") = Return foodName ->
  generateFoodImage foodName imageResponse = Return url ->
  let st' :=
    run (handlePreferencesSubmit JSON_parse recommendationResponse imageResponse) st in
  reachable JSON_parse ToString_key st' /\
  step st' = result /\
  currentUserRating st' = VNull /\
  renderContent st' = Null /\
  forall e, offered (renderContent st') e = false.
Proof.
  intros Hreach Hs Hm Hf Hr Hfam Hname Hi st'.
  assert (Hst : st' = result_screen st VNull
            (map_indexed (fun rec index =>
                            with_image (if (index =? 0)%nat then url else js "") rec)
               (primary :: others)))
    by (apply (submit_succeeds _ _ _ _ mt fp Hm Hf primary others VNull foodName url);
        auto).
  split.
  - subst st'.
    apply (reachable_event JSON_parse ToString_key st
             (ClickSubmit recommendationResponse imageResponse) Hreach).
    unfold renderContent. rewrite Hs, Hm, Hf. reflexivity.
  - destruct (tail_images_empty url primary others) as (rest & Hmap & _).
    rewrite Hmap in Hst.
    assert (Hview : renderContent st' = Null) by (rewrite Hst; reflexivity).
    rewrite Hview. rewrite Hst. repeat split.
Qed.

Lemma null_familiarity_leaves_a_blank_page_witness :
  reachable JSON.parse Sample.key_of Scenario.blank /\
  step Scenario.blank = result /\
  currentUserRating Scenario.blank = VNull /\
  renderContent Scenario.blank = Null /\
  forall e, offered (renderContent Scenario.blank) e = false.
Proof.
  apply (null_familiarity_leaves_a_blank_page JSON.parse Sample.key_of
           (Resolved (Some Scenario.null_familiarity)) Sample.one_image
           Scenario.chosen MealTime.LUNCH FoodPreference.SOUP
           (VObj [(js "foodName", VStr (js "신선로"));
                  (js "reason", VStr (js "특별한 날"));
                  (js "familiarity", VNull)]) []
           (VStr (js "신선로")) (js "data:image/jpeg;base64,QUJD"));
    try (vm_compute; reflexivity).
  apply chosen_reachable.
Defined.

(* ===================================================================== *)
(** ** FamiliarityRating                                                   *)
(* ===================================================================== *)

(** The rating widget shows a label exactly for the scores 1 to 5: for such
    a score the label is the entry of [labels] before it, and for any other
    number (0, 6, a fraction) [labels\[score - 1\]] is [undefined]. *)
Theorem label_exactly_for_scores_1_to_5 (score : Q) :
  (forall n : Z,
      (1 <= n <= 5)%Z -> score == inject_Z n ->
      exists text,
        FamiliarityRating.label score = Some text /\
        nth_error FamiliarityRating.labels (Z.to_nat (n - 1)) = Some text) /\
  ((forall n : Z, (1 <= n <= 5)%Z -> ~ score == inject_Z n) ->
   FamiliarityRating.label score = None).
Proof.
  unfold FamiliarityRating.label, FamiliarityRating.at_index. split.
  - intros n Hn Hscore.
    assert (Hk : score - 1 == inject_Z (n - 1)).
    { rewrite Hscore. unfold Z.sub. rewrite inject_Z_plus. reflexivity. }
    assert (Hfloor : Qfloor (score - 1) = (n - 1)%Z)
      by (rewrite Hk; apply Qfloor_Z).
    rewrite Hfloor.
    assert (Heq : Qeq_bool (score - 1) (inject_Z (n - 1)) = true)
      by (apply Qeq_bool_iff; exact Hk).
    rewrite Heq. replace (0 <=? n - 1)%Z with true by (symmetry; apply Z.leb_le; lia).
    cbn [andb].
    assert (Hcases : (n = 1 \/ n = 2 \/ n = 3 \/ n = 4 \/ n = 5)%Z) by lia.
    destruct Hcases as [->|[->|[->|[->| ->]]]]; eexists; split; reflexivity.
  - intros Hno.
    destruct (Qeq_bool (score - 1) (inject_Z (Qfloor (score - 1)))) eqn:Heq;
      [|reflexivity].
    destruct (0 <=? Qfloor (score - 1))%Z eqn:Hpos; [|reflexivity].
    cbn [andb]. apply Qeq_bool_iff in Heq. apply Z.leb_le in Hpos.
    destruct (nth_error FamiliarityRating.labels (Z.to_nat (Qfloor (score - 1))))
      as [text|] eqn:Hnth; [|reflexivity].
    exfalso. apply (Hno (Qfloor (score - 1) + 1)%Z).
    + assert (Hlt : (Z.to_nat (Qfloor (score - 1))
                     < length FamiliarityRating.labels)%nat)
        by (apply nth_error_Some; rewrite Hnth; discriminate).
      change (length FamiliarityRating.labels) with 5%nat in Hlt. lia.
    + rewrite inject_Z_plus, <- Heq. ring.
Qed.

Lemma label_exactly_for_scores_1_to_5_witness :
  (exists text,
      FamiliarityRating.label 3 = Some text /\
      nth_error FamiliarityRating.labels (Z.to_nat (3 - 1)) = Some text) /\
  FamiliarityRating.label (7 # 2) = None.
Proof.
  split.
  - apply (proj1 (label_exactly_for_scores_1_to_5 3) 3%Z); [lia | reflexivity].
  - apply (proj2 (label_exactly_for_scores_1_to_5 (7 # 2))).
    intros n Hn Hscore. unfold Qeq in Hscore. simpl in Hscore. lia.
Defined.
